(** * form-actions-nuxt: the module's build pipeline

    A shallow embedding of [packages/form-actions-nuxt/src/module.ts]:
    route derivation ([getActionRoute]), loader extraction ([writeLoader]),
    the full scan run on the [nitro:config] hook and the incremental
    updater run on the [builder:watch] hook.

    Strings are [string]s of code units below 256.  Asynchronous calls are
    awaited one after the other in the source, so a hook is a function of the
    host state that returns or throws.  The host state is the part of [nuxt],
    of the nitro configuration and of the disk that the hooks read and
    write. *)

From Stdlib Require Import Ascii String Bool List Lia.
From stdpp Require Import base option list gmap strings.

(** ** JavaScript string primitives used by the module *)

Module JsString.

(** [s.startsWith(p)] *)
Fixpoint startsWith (p s : string) : bool :=
  match p, s with
  | EmptyString, _ => true
  | String a p', String b s' => if Ascii.eqb a b then startsWith p' s' else false
  | String _ _, EmptyString => false
  end.

(** [s.includes(sub)] *)
Fixpoint includes (s sub : string) : bool :=
  if startsWith sub s then true
  else match s with
       | EmptyString => false
       | String _ s' => includes s' sub
       end.

(** The rest of [s] after the literal [p], when [s] starts with [p]. *)
Fixpoint stripPrefix (p s : string) : option string :=
  match p, s with
  | EmptyString, _ => Some s
  | String a p', String b s' => if Ascii.eqb a b then stripPrefix p' s' else None
  | String _ _, EmptyString => None
  end.

(** [l.join(sep)] *)
Definition join (sep : string) (l : list string) : string := String.concat sep l.

(** [l.includes(x)] on an array of strings *)
Definition arrayIncludes (l : list string) (x : string) : bool :=
  existsb (String.eqb x) l.

End JsString.
Import JsString.

(** ** The regular expression [/actions\/(.*?)\.ts/] *)

Module ActionRegex.

(** What [.] refuses: the line terminators (LF and CR among code units below 256). *)
Definition isLineTerminator (c : ascii) : bool :=
  Ascii.eqb c "010"%char || Ascii.eqb c "013"%char.

(** [(.*?)\.ts] matched at the head of [s]: the lazy group takes the fewest
    characters after which [.ts] follows, and cannot step over a line
    terminator.  The result is the captured group. *)
Fixpoint lazyGroup (s : string) : option string :=
  if startsWith ".ts" s then Some EmptyString
  else match s with
       | EmptyString => None
       | String c s' =>
           if isLineTerminator c then None
           else match lazyGroup s' with
                | Some g => Some (String c g)
                | None => None
                end
       end.

(** No character of [s] is a line terminator. *)
Fixpoint singleLine (s : string) : bool :=
  match s with
  | EmptyString => true
  | String c s' => negb (isLineTerminator c) && singleLine s'
  end.

(** The whole pattern matched at the head of [s]. *)
Definition matchHere (s : string) : option string :=
  match stripPrefix "actions/" s with
  | Some rest => lazyGroup rest
  | None => None
  end.

(** [actionRegex.exec(s)?.[1]]: the group of the leftmost match. *)
Fixpoint exec (s : string) : option string :=
  match matchHere s with
  | Some g => Some g
  | None => match s with
            | EmptyString => None
            | String _ s' => exec s'
            end
  end.

End ActionRegex.

(** ** Exceptions and results *)

Inductive Exn : Type :=
| Error (message : string)                 (* [new Error(message)] *)
| ErrnoException (code path : string)      (* a rejected [fs] call *)
| ParseError (path : string)               (* magicast's [loadFile] rejects *)
| GenerateError                            (* magicast's [generateCode] throws *)
| TransformError.                          (* esbuild's [transform] rejects *)

Inductive Result (A : Type) : Type :=
| Ok (a : A)
| Throw (e : Exn).
Arguments Ok {A} a.
Arguments Throw {A} e.

(** ** Route derivation *)

Definition getActionRoute (actionPath : string) : Result string :=
  match ActionRegex.exec actionPath with
  | Some (String c r) => Ok (String c r)
  | _ => Throw (Error ("Could not parse action route from " +:+ actionPath))
  end.

(** The match that yields route [r] from [path] begins at the first
    [actions/] of [path]. *)
Definition matchesFirstOccurrence (path r : string) : Prop :=
  ∃ pre post, path = pre +:+ "actions/" +:+ r +:+ ".ts" +:+ post
              ∧ includes (pre +:+ "actions") "actions/" = false.

(** ** The file system the module reads and writes

    Paths are strings with [/] as separator, taken as normalised; the root
    directory is the empty path.  A store lists the directories and the
    files with their text.  As in Node, [mkdir], [writeFile] and [appendFile]
    without further options do not create a missing parent directory. *)

Record FS : Type := mkFS {
  dirs : gset string;
  files : gmap string string
}.

Module Fs.

(** The directory a path is resolved in: everything before its last [/]. *)
Fixpoint parent (p : string) : string :=
  match p with
  | EmptyString => EmptyString
  | String c rest => if includes rest "/" then String c (parent rest) else EmptyString
  end.

Definition isDir (fs : FS) (p : string) : bool := bool_decide (p ∈ dirs fs).
Definition isFile (fs : FS) (p : string) : bool := bool_decide (is_Some (files fs !! p)).
Definition exists_ (fs : FS) (p : string) : bool := isDir fs p || isFile fs p.

(** [p] is [d] itself or lies below it. *)
Definition within (d p : string) : bool :=
  String.eqb p d || startsWith (d +:+ "/") p.

Definition mkdir (p : string) (fs : FS) : Result FS :=
  if exists_ fs p then Throw (ErrnoException "EEXIST" p)
  else if isDir fs (parent p) then Ok (mkFS ({[p]} ∪ dirs fs) (files fs))
  else Throw (ErrnoException "ENOENT" p).

Definition rmRecursive (p : string) (fs : FS) : Result FS :=
  if exists_ fs p
  then Ok (mkFS (filter (λ q, within p q = false) (dirs fs))
                (filter (λ kv, within p kv.1 = false) (files fs)))
  else Throw (ErrnoException "ENOENT" p).

Definition writeFile (p data : string) (fs : FS) : Result FS :=
  if isDir fs p then Throw (ErrnoException "EISDIR" p)
  else if isDir fs (parent p) then Ok (mkFS (dirs fs) (<[p := data]> (files fs)))
  else Throw (ErrnoException "ENOENT" p).

Definition appendFile (p data : string) (fs : FS) : Result FS :=
  if isDir fs p then Throw (ErrnoException "EISDIR" p)
  else if isDir fs (parent p)
  then Ok (mkFS (dirs fs) (<[p := default EmptyString (files fs !! p) +:+ data]> (files fs)))
  else Throw (ErrnoException "ENOENT" p).

Definition readFile (p : string) (fs : FS) : Result string :=
  match files fs !! p with
  | Some text => Ok text
  | None => Throw (ErrnoException (if isDir fs p then "EISDIR" else "ENOENT") p)
  end.

End Fs.

(** What [readdir] reports during the walk: entry names, and for a
    directory its own entries, in the order they are returned. *)
#[warnings="-register-all"]
Inductive Dirent : Type :=
| FileEnt (name : string)
| DirEnt (name : string) (entries : list Dirent).

(** ** magicast modules and the external tool chain *)

(** A loaded module: its named exports (export name to exported expression)
    and the statements that are not exports. *)
Record ProxifiedModule : Type := mkModule {
  exports : gmap string string;
  statements : list string
}.

(** [file.exports[k] = v], where [v] was read from another export. *)
Definition exportsAssign (k : string) (v : option string) (file : ProxifiedModule) : ProxifiedModule :=
  match v with
  | Some e => mkModule (<[k := e]> (exports file)) (statements file)
  | None => mkModule (delete k (exports file)) (statements file)
  end.

(** [delete file.exports[k]] *)
Definition exportsDelete (k : string) (file : ProxifiedModule) : ProxifiedModule :=
  mkModule (delete k (exports file)) (statements file).

(** [file.exports[k]] in a condition: an export that is there is truthy. *)
Definition hasExport (k : string) (file : ProxifiedModule) : bool :=
  bool_decide (is_Some (exports file !! k)).

(** The capabilities the module consumes: magicast's parser and printer,
    esbuild's [transform] with [treeShaking], [String.prototype.toUpperCase]
    on one code unit, and the two text blocks of [./runtime/utils]. *)
Class Toolchain : Type := {
  parseModule : string → option ProxifiedModule;
  generateCode : ProxifiedModule → option string;
  transform : string → option string;
  toUpperCase : ascii → string;
  loaderTypesBefore : string;
  loaderTypesAfter : string
}.

(** Modelled from the spec: [NITRO_LOADER_PREFIX] of [./runtime/utils], the
    fixed loader route prefix; the spec's routes read [/__loaders__/profile]. *)
Definition NITRO_LOADER_PREFIX : string := "__loaders__".

(** ** Host state *)

Inductive HTTPMethod : Type := get | post.

Record NitroEventHandler : Type := mkHandler {
  h_method : option HTTPMethod;
  h_route : string;
  h_lazy : bool;
  h_handler : string;
  h_formAction : bool
}.

Record LoaderEntry : Type := mkLoader {
  l_name : string;
  l_filePath : string;
  l_url : string
}.

Inductive LogEntry : Type :=
| LogInfo (message : string) (arg : option string)
| LogSuccess (message : string)
| LogError (message : string) (error : Exn).

Record World : Type := mkWorld {
  serverLoaders : list string;                 (* runtimeConfig.public.__serverLoaders__ *)
  serverHandlers : list NitroEventHandler;     (* nuxt.options.serverHandlers *)
  nitroHandlers : list NitroEventHandler;      (* nitro.handlers *)
  loaderMap : list (string * LoaderEntry);     (* the Map, in insertion order *)
  loaderTypesTemplate : bool;                  (* addLoaderTypes has registered the template *)
  templateUpdates : nat;                       (* updateTemplates calls for the loader types *)
  disk : FS;
  logs : list LogEntry
}.

Definition setServerLoaders (v : list string) (w : World) : World :=
  mkWorld v (serverHandlers w) (nitroHandlers w) (loaderMap w)
          (loaderTypesTemplate w) (templateUpdates w) (disk w) (logs w).
Definition setServerHandlers (v : list NitroEventHandler) (w : World) : World :=
  mkWorld (serverLoaders w) v (nitroHandlers w) (loaderMap w)
          (loaderTypesTemplate w) (templateUpdates w) (disk w) (logs w).
Definition setNitroHandlers (v : list NitroEventHandler) (w : World) : World :=
  mkWorld (serverLoaders w) (serverHandlers w) v (loaderMap w)
          (loaderTypesTemplate w) (templateUpdates w) (disk w) (logs w).
Definition setLoaderMap (v : list (string * LoaderEntry)) (w : World) : World :=
  mkWorld (serverLoaders w) (serverHandlers w) (nitroHandlers w) v
          (loaderTypesTemplate w) (templateUpdates w) (disk w) (logs w).
Definition setLoaderTypesTemplate (v : bool) (w : World) : World :=
  mkWorld (serverLoaders w) (serverHandlers w) (nitroHandlers w) (loaderMap w)
          v (templateUpdates w) (disk w) (logs w).
Definition setTemplateUpdates (v : nat) (w : World) : World :=
  mkWorld (serverLoaders w) (serverHandlers w) (nitroHandlers w) (loaderMap w)
          (loaderTypesTemplate w) v (disk w) (logs w).
Definition setDisk (v : FS) (w : World) : World :=
  mkWorld (serverLoaders w) (serverHandlers w) (nitroHandlers w) (loaderMap w)
          (loaderTypesTemplate w) (templateUpdates w) v (logs w).
Definition setLogs (v : list LogEntry) (w : World) : World :=
  mkWorld (serverLoaders w) (serverHandlers w) (nitroHandlers w) (loaderMap w)
          (loaderTypesTemplate w) (templateUpdates w) (disk w) v.

(** ** The monad of the hooks: host state, and exceptions that keep the
    state reached when they are thrown *)

Definition M (A : Type) : Type := World → Result A * World.

#[global] Instance M_ret : MRet M := λ A a w, (Ok a, w).
#[global] Instance M_bind : MBind M := λ A B f m w,
  match m w with
  | (Ok a, w') => f a w'
  | (Throw e, w') => (Throw e, w')
  end.

Definition throw {A : Type} (e : Exn) : M A := λ w, (Throw e, w).
Definition liftResult {A : Type} (r : Result A) : M A := λ w, (r, w).
Definition gets {A : Type} (f : World → A) : M A := λ w, (Ok (f w), w).
Definition modify (f : World → World) : M unit := λ w, (Ok tt, f w).

(** [try { body } catch (error) { handler(error) }] *)
Definition tryCatch {A : Type} (body : M A) (handler : Exn → M A) : M A := λ w,
  match body w with
  | (Ok a, w') => (Ok a, w')
  | (Throw e, w') => handler e w'
  end.

(** [for (const x of l) { body(x) }] *)
Fixpoint forOf {A : Type} (l : list A) (body : A → M unit) : M unit :=
  match l with
  | [] => mret tt
  | x :: l' => body x ;; forOf l' body
  end.

Definition when (b : bool) (m : M unit) : M unit := if b then m else mret tt.

(** An [fs] call that changes the disk, or rejects and leaves it. *)
Definition liftFs (op : FS → Result FS) : M unit := λ w,
  match op (disk w) with
  | Ok fs => (Ok tt, setDisk fs w)
  | Throw e => (Throw e, w)
  end.

Definition existsSync (p : string) : M bool := gets (λ w, Fs.exists_ (disk w) p).
Definition fsp_mkdir (p : string) : M unit := liftFs (Fs.mkdir p).
Definition fsp_rm (p : string) : M unit := liftFs (Fs.rmRecursive p).
Definition fsp_writeFile (p data : string) : M unit := liftFs (Fs.writeFile p data).
Definition fsp_appendFile (p data : string) : M unit := liftFs (Fs.appendFile p data).

Definition logger_info (message : string) (arg : option string) : M unit :=
  modify (λ w, setLogs (logs w ++ [LogInfo message arg]) w).
Definition logger_success (message : string) : M unit :=
  modify (λ w, setLogs (logs w ++ [LogSuccess message]) w).
Definition logger_error (message : string) (error : Exn) : M unit :=
  modify (λ w, setLogs (logs w ++ [LogError message error]) w).

(** [loaderMap.set(k, v)]: a known key keeps its place. *)
Fixpoint mapSet (k : string) (v : LoaderEntry) (m : list (string * LoaderEntry))
  : list (string * LoaderEntry) :=
  match m with
  | [] => [(k, v)]
  | (k', v') :: m' => if String.eqb k' k then (k, v) :: m' else (k', v') :: mapSet k v m'
  end.

(** [loaderMap.has(k)] *)
Definition mapHas (k : string) (m : list (string * LoaderEntry)) : bool :=
  existsb (λ kv, String.eqb kv.1 k) m.

(** [Array.from(loaderMap.values())] *)
Definition mapValues (m : list (string * LoaderEntry)) : list LoaderEntry := map snd m.

(** [addServerHandler] of [@nuxt/kit] *)
Definition addServerHandler (h : NitroEventHandler) : M unit :=
  modify (λ w, setServerHandlers (serverHandlers w ++ [h]) w).

(** [path.resolve(dir, name)] for an absolute [dir] and an entry name *)
Definition pathResolve (dir name : string) : string := dir +:+ "/" +:+ name.

(** ** walkFiles *)

Fixpoint walkEntry (dir : string) (entry : Dirent) : list string :=
  let res := pathResolve dir (match entry with FileEnt n => n | DirEnt n _ => n end) in
  match entry with
  | DirEnt _ entries => List.flat_map (walkEntry res) entries
  | FileEnt _ => [res]
  end.

Definition walkFiles (dir : string) (entries : list Dirent) : list string :=
  List.flat_map (walkEntry dir) entries.

(** ** The module *)

Definition newline : string := String "010"%char EmptyString.
Definition dquote : string := String "034"%char EmptyString.

Definition GENERATED_TEXT : string :=
  "/** This file is auto-generated by the form-actions module. /!\ Do not modify it manually ! */ "
  +:+ newline.

Definition getLoaderRoute (route : string) : string :=
  "/" +:+ NITRO_LOADER_PREFIX +:+ "/" +:+ route.

Section Pipeline.

Context `{Toolchain}.

(** magicast's [loadFile]: read the file, parse it. *)
Definition loadFile (path : string) : M ProxifiedModule :=
  text ← (λ w, (Fs.readFile path (disk w), w)) : M string;
  match parseModule text with
  | Some file => mret file
  | None => throw (ParseError path)
  end.

Definition writeLoader (file : ProxifiedModule) (loaderDirectory actionRoute : string) : M string :=
  let file := exportsAssign "default" (exports file !! "loader") file in
  let file := exportsDelete "loader" file in
  code ← match generateCode file with Some c => mret c | None => throw GenerateError end;
  shaked ← match transform code with Some c => mret c | None => throw TransformError end;
  let handler := loaderDirectory +:+ "/" +:+ actionRoute +:+ ".ts" in
  fsp_writeFile handler GENERATED_TEXT ;;
  fsp_appendFile handler shaked ;;
  mret handler.

(** *** The loader types template *)

Definition capitalize (s : string) : string :=
  match s with
  | EmptyString => EmptyString
  | String c rest => toUpperCase c +:+ rest
  end.

Definition loaderUrlUnion (l : list LoaderEntry) : string :=
  join " | " (map (λ l, dquote +:+ l_url l +:+ dquote) l).

Definition loaderNameUnion (l : list LoaderEntry) : string :=
  join " | " (map (λ l, dquote +:+ l_name l +:+ dquote) l).

Definition getContents (l : list LoaderEntry) : string :=
  newline +:+
  "          " +:+ loaderTypesBefore +:+ newline +:+
  newline +:+
  "          type LoaderUrl = " +:+ loaderUrlUnion l +:+ newline +:+
  newline +:+
  "          type LoaderName = " +:+ loaderNameUnion l +:+ newline +:+
  "          " +:+ newline +:+
  "          " +:+ join newline (map (λ l, "type Loader" +:+ capitalize (l_name l)
                     +:+ " = typeof import(" +:+ dquote +:+ l_filePath l +:+ dquote
                     +:+ ").default") l) +:+ newline +:+
  newline +:+
  "          export interface Loaders {" +:+ newline +:+
  "            " +:+ join newline (map (λ l, dquote +:+ l_name l +:+ dquote
                     +:+ ": ExtractLoader<Loader" +:+ capitalize (l_name l) +:+ ">") l) +:+ newline +:+
  "          }" +:+ newline +:+
  newline +:+
  "          " +:+ loaderTypesAfter +:+ newline +:+
  "          ".

(** What the declaration artifact holds once the template is rendered. *)
Definition loaderTypes (w : World) : string := getContents (mapValues (loaderMap w)).

Definition addLoaderTypes : M unit := modify (setLoaderTypesTemplate true).

(** [updateTemplates({ filter: t => t.filename === loaderTypesFilename })] *)
Definition updateTemplates : M unit :=
  modify (λ w, setTemplateUpdates (S (templateUpdates w)) w).

Variable srcDir : string.

Definition actionDirectoryPath : string := srcDir +:+ "/server/actions".
Definition loaderDirectory : string := srcDir +:+ "/server/.loader".

(** *** setup, up to the hooks *)

Definition setup : M unit :=
  logger_info "Adding form-actions module..." None ;;
  present ← existsSync actionDirectoryPath;
  when (negb present) (fsp_mkdir actionDirectoryPath) ;;
  modify (setLoaderMap []) ;;
  modify (setServerLoaders []).

(** *** The full scan: the [nitro:config] hook *)

(** The body of the [for await] loop.  The walk reads the action
    directory and the body writes below the loader directory only, so the
    paths the walk yields do not depend on what the body does. *)
Definition scanAction (actionPath : string) : M unit :=
  actionRoute ← liftResult (getActionRoute actionPath);
  let route := "/" +:+ actionRoute in
  file ← loadFile actionPath;
  when (hasExport "default" file)
    (modify (λ w, setNitroHandlers
       (nitroHandlers w ++ [mkHandler None route false actionPath true]) w) ;;
     logger_success ("[form-actions] {form action} added : '" +:+ route +:+ "'")) ;;
  when (hasExport "loader" file)
    (handler ← writeLoader file loaderDirectory actionRoute;
     let route := getLoaderRoute actionRoute in
     modify (λ w, setNitroHandlers
       (nitroHandlers w ++ [mkHandler (Some get) route true handler false]) w) ;;
     logger_success ("[form-actions] {loader} added '" +:+ actionRoute +:+ "' at '" +:+ route +:+ "'") ;;
     modify (λ w, setServerLoaders (serverLoaders w ++ [actionRoute]) w) ;;
     modify (λ w, setLoaderMap
       (mapSet actionRoute (mkLoader actionRoute handler route) (loaderMap w)) w) ;;
     logger_success ("[form-actions] {loader} added type for '" +:+ actionRoute +:+ "'")).

Definition nitroConfigHook (entries : list Dirent) : M unit :=
  present ← existsSync loaderDirectory;
  when present (fsp_rm loaderDirectory) ;;
  fsp_mkdir loaderDirectory ;;
  fsp_writeFile (loaderDirectory +:+ "/.gitignore") "*" ;;
  forOf (walkFiles actionDirectoryPath entries) scanAction ;;
  addLoaderTypes ;;
  names ← gets serverLoaders;
  logger_success ("[form-actions] {loader} added to the config : " +:+ join ", " names).

(** *** The incremental updater: the [builder:watch] hook *)

Definition removeLoaderFromServerLoader (actionRoute : string) : M unit :=
  names ← gets serverLoaders;
  when (arrayIncludes names actionRoute)
    (modify (setServerLoaders
       (List.filter (λ route, negb (String.eqb route actionRoute)) names)) ;;
     names ← gets serverLoaders;
     logger_success ("[form-actions] {loader} removed : '" +:+ actionRoute
                     +:+ "', [" +:+ join ", " names +:+ "]")).

(** The [try] block.  [loadFile] returns an object or throws, so the test
    [if (file)] always passes. *)
Definition watchBody (event path : string) : M unit :=
  when (includes path "server/actions")
    (logger_info ("[form-actions] changed '@" +:+ event +:+ "'") (Some path) ;;
     actionRoute ← liftResult (getActionRoute path);
     present ← existsSync path;
     if negb present then removeLoaderFromServerLoader actionRoute
     else
       file ← loadFile path;
       handlers ← gets serverHandlers;
       let hasHandler := existsb (λ handler, String.eqb (h_handler handler) path) handlers in
       when (negb hasHandler)
         (logger_info ("[form-actions] {handler} added new : '" +:+ actionRoute +:+ "'") None ;;
          addServerHandler (mkHandler (Some post) ("/" +:+ actionRoute) true path false)) ;;
       if hasExport "loader" file then
         handler ← writeLoader file loaderDirectory actionRoute;
         updateTemplates ;;
         logger_success ("[form-actions] {loader} updated : '" +:+ handler +:+ "'") ;;
         names ← gets serverLoaders;
         when (negb (arrayIncludes names actionRoute))
           (modify (λ w, setLoaderMap
              (mapSet actionRoute
                 (mkLoader actionRoute handler (getLoaderRoute actionRoute)) (loaderMap w)) w) ;;
            modify (λ w, setServerLoaders (serverLoaders w ++ [actionRoute]) w) ;;
            names ← gets serverLoaders;
            logger_success ("[form-actions] {loader} added new : '" +:+ actionRoute
                            +:+ "' [" +:+ join ", " names +:+ "]"))
       else removeLoaderFromServerLoader actionRoute).

Definition builderWatchHook (event path : string) : M unit :=
  tryCatch (watchBody event path)
    (λ error, logger_error ("[form-actions] error while handling '" +:+ event +:+ "'") error).

End Pipeline.

(** The module [writeLoader] hands to the printer. *)
Definition promoted (file : ProxifiedModule) : ProxifiedModule :=
  exportsDelete "loader" (exportsAssign "default" (exports file !! "loader") file).

(** A step keeps a property of the world, whether it returns or throws. *)
Definition keeps {A : Type} (P : World → Prop) (m : M A) : Prop :=
  ∀ w r w', m w = (r, w') → P w → P w'.

(** ** Runs of the pipeline *)

(** The states the pipeline can be in: after a [setup] that went through,
    the hooks run in any order, and between them the project's files may be
    edited. *)
Inductive reachable `{Toolchain} (srcDir : string) : World → Prop :=
| reach_setup w w' :
    setup srcDir w = (Ok tt, w') → reachable srcDir w'
| reach_scan w entries :
    reachable srcDir w → reachable srcDir (nitroConfigHook srcDir entries w).2
| reach_watch w event path :
    reachable srcDir w → reachable srcDir (builderWatchHook srcDir event path w).2
| reach_edit w fs :
    reachable srcDir w → reachable srcDir (setDisk fs w).

(** Every published loader name has an entry in the loader map. *)
Definition namesRegistered (w : World) : Prop :=
  ∀ route, In route (serverLoaders w) → mapHas route (loaderMap w) = true.

(** The files that lie in the loader directory. *)
Definition generatedFiles (srcDir : string) (w : World) : list string :=
  List.filter (Fs.within (srcDir +:+ "/server/.loader")) (map fst (map_to_list (files (disk w)))).

(** Every registration the pipeline has made. *)
Definition registrations (w : World) : list NitroEventHandler :=
  nitroHandlers w ++ serverHandlers w.

Definition routeKey (h : NitroEventHandler) : option HTTPMethod * string :=
  (h_method h, h_route h).

(** ** A small tool chain to run the pipeline on

    Sources are read by their export statements only: a text holds a default
    export when it contains [export default] and a loader export when it
    contains [export const loader]; a text containing [<<<<] does not parse. *)

Module Toy.

Definition parse (text : string) : option ProxifiedModule :=
  if includes text "<<<<" then None
  else Some (mkModule
    ((if includes text "export default" then {["default" := "defineFormActions({})"]} else ∅)
     ∪ (if includes text "export const loader" then {["loader" := "defineServerLoader(load)"]} else ∅))
    []).

Definition print (file : ProxifiedModule) : option string :=
  Some (match exports file !! "default" with
        | Some e => "export default " +:+ e +:+ ";"
        | None => EmptyString
        end +:+
        match exports file !! "loader" with
        | Some e => "export const loader = " +:+ e +:+ ";"
        | None => EmptyString
        end).

Definition upper (c : ascii) : string :=
  let n := nat_of_ascii c in
  String (if (97 <=? n)%nat && (n <=? 122)%nat then ascii_of_nat (n - 32) else c) EmptyString.

#[export] Instance tools : Toolchain := {|
  parseModule := parse;
  generateCode := print;
  transform := Some;
  toUpperCase := upper;
  loaderTypesBefore := "declare module '#form-actions-loaders' {";
  loaderTypesAfter := "}"
|}.

(** The module a text is loaded as (the empty module when it does not parse). *)
Definition loaded (text : string) : ProxifiedModule :=
  default (mkModule ∅ []) (parse text).

Definition handlerOnly : string := "export default defineFormActions({})".
Definition loaderOnly : string := "export const loader = defineServerLoader(load)".
Definition both : string := handlerOnly +:+ newline +:+ loaderOnly.
Definition noExports : string := "const load = () => 1".

(** A project at [/proj] whose [server] directory holds [actions]. *)
Definition project (sources : list (string * string)) (subdirs : list string) : FS :=
  mkFS (list_to_set (["" ; "/proj"; "/proj/server"; "/proj/server/actions"] ++ subdirs))
       (list_to_map sources).

Definition world (fs : FS) : World := mkWorld [] [] [] [] false 0 fs [].

(** The project's files are edited: [path] now holds [text]. *)
Definition edit (path text : string) (w : World) : World :=
  setDisk (mkFS (dirs (disk w)) (<[path := text]> (files (disk w)))) w.

(** The spec's example project, set up and scanned. *)
Definition example : FS :=
  project [("/proj/server/actions/login.ts", handlerOnly);
           ("/proj/server/actions/profile.ts", loaderOnly);
           ("/proj/server/actions/search.ts", both)] [].

Definition scanned : World :=
  (nitroConfigHook "/proj" [FileEnt "login.ts"; FileEnt "profile.ts"; FileEnt "search.ts"]
     (setup "/proj" (world example)).2).2.

(** Then [profile.ts] loses its loader export and the change is reported. *)
Definition stripped : World :=
  (builderWatchHook "/proj" "change" "/proj/server/actions/profile.ts"
     (edit "/proj/server/actions/profile.ts" noExports scanned)).2.

(** A project with a nested action that exports a loader only. *)
Definition nested : FS :=
  project [("/proj/server/actions/a/b.ts", loaderOnly)] ["/proj/server/actions/a"].

(** A project with one action that exports a handler only. *)
Definition single : FS :=
  project [("/proj/server/actions/login.ts", handlerOnly)] [].

(** A project in which two files derive the same route. *)
Definition twins : FS :=
  project [("/proj/server/actions/login.ts", handlerOnly);
           ("/proj/server/actions/login.tsx", handlerOnly)] [].

(** The same two files, created after the scan of an empty action
    directory and reported one after the other. *)
Definition twinsAdded : World :=
  (builderWatchHook "/proj" "add" "/proj/server/actions/login.tsx"
     (builderWatchHook "/proj" "add" "/proj/server/actions/login.ts"
        (edit "/proj/server/actions/login.tsx" handlerOnly
           (edit "/proj/server/actions/login.ts" handlerOnly
              (nitroConfigHook "/proj" [] (world (project [] []))).2))).2).2.

End Toy.

(** ** Further notions used to state properties of the pipeline *)


(** The generated file of a route. *)
Definition handlerOf (srcDir route : string) : string :=
  loaderDirectory srcDir +:+ "/" +:+ route +:+ ".ts".

(** An entry of the loader map is the one the module makes for its key. *)
Definition entryFor (srcDir : string) (kv : string * LoaderEntry) : Prop :=
  kv.2 = mkLoader kv.1 (handlerOf srcDir kv.1) (getLoaderRoute kv.1).

(** The loader map holds one entry per route, each made for its key. *)
Definition loaderMapWellFormed (srcDir : string) (w : World) : Prop :=
  List.NoDup (map fst (loaderMap w)) ∧ Forall (entryFor srcDir) (loaderMap w).

(** [l'] is [l] with further elements pushed. *)
Definition extends {A : Type} (l l' : list A) : Prop := ∃ rest, l' = l ++ rest.

(** Whatever file lies in the loader directory is [.gitignore] or the
    generated file of the route of one of [paths]. *)
Definition ownedBy (srcDir : string) (paths : list string) (w : World) : Prop :=
  ∀ p, Fs.within (loaderDirectory srcDir) p = true →
       is_Some (files (disk w) !! p) →
       p = loaderDirectory srcDir +:+ "/.gitignore"
       ∨ ∃ actionPath route,
           In actionPath paths ∧ getActionRoute actionPath = Ok route
           ∧ p = handlerOf srcDir route.

(** What a scan has added to a world, list by list. *)
Definition onlyAdds (w w' : World) : Prop :=
  extends (nitroHandlers w) (nitroHandlers w')
  ∧ extends (serverLoaders w) (serverLoaders w')
  ∧ extends (logs w) (logs w')
  ∧ (∀ k, mapHas k (loaderMap w) = true → mapHas k (loaderMap w') = true)
  ∧ serverHandlers w' = serverHandlers w
  ∧ templateUpdates w' = templateUpdates w.

(** * Properties *)

(** ** Strings *)

#[local] Arguments String.append !s1 s2 : simpl nomatch.

Section StringFacts.

Implicit Types (p s a b sub : string) (c : ascii).

Lemma append_assoc a b s : (a +:+ b) +:+ s = a +:+ (b +:+ s).
Proof. induction a as [|c a IH]; simpl; [reflexivity | now rewrite IH]. Qed.

Lemma append_empty_r a : a +:+ EmptyString = a.
Proof. induction a as [|c a IH]; simpl; [reflexivity | now rewrite IH]. Qed.

Lemma append_length a b : String.length (a +:+ b) = (String.length a + String.length b)%nat.
Proof. induction a as [|c a IH]; simpl; [reflexivity | now rewrite IH]. Qed.

Lemma startsWith_append p s : startsWith p (p +:+ s) = true.
Proof.
  induction p as [|c p IH]; simpl; [reflexivity |].
  now rewrite Ascii.eqb_refl.
Qed.

Lemma startsWith_split p s : startsWith p s = true → ∃ r, s = p +:+ r.
Proof.
  revert s; induction p as [|c p IH]; intros s Hs; simpl in *.
  - now exists s.
  - destruct s as [|d s]; [discriminate |].
    destruct (Ascii.eqb_spec c d) as [->|]; [| discriminate].
    destruct (IH _ Hs) as [r ->]. now exists r.
Qed.

(** Only the first [length p] characters of the subject are looked at. *)
Lemma startsWith_head p a b :
  (String.length p <= String.length a)%nat → startsWith p (a +:+ b) = startsWith p a.
Proof.
  revert a; induction p as [|c p IH]; intros a Hlen; simpl.
  - reflexivity.
  - destruct a as [|d a]; simpl in *; [lia |].
    destruct (Ascii.eqb c d); [apply IH; lia | reflexivity].
Qed.

Lemma stripPrefix_startsWith p s : is_Some (stripPrefix p s) ↔ startsWith p s = true.
Proof.
  revert s; induction p as [|c p IH]; intros s; simpl.
  - split; eauto.
  - destruct s as [|d s]; [split; [intros [? [=]] | discriminate] |].
    destruct (Ascii.eqb c d); [apply IH | split; [intros [? [=]] | discriminate]].
Qed.

Lemma stripPrefix_append p s : stripPrefix p (p +:+ s) = Some s.
Proof.
  induction p as [|c p IH]; simpl; [reflexivity |].
  now rewrite Ascii.eqb_refl.
Qed.

Lemma stripPrefix_split p s r : stripPrefix p s = Some r → s = p +:+ r.
Proof.
  revert s; induction p as [|c p IH]; intros s Hs; simpl in *.
  - congruence.
  - destruct s as [|d s]; [discriminate |].
    destruct (Ascii.eqb_spec c d) as [->|]; [| discriminate].
    now rewrite (IH _ Hs).
Qed.

Lemma stripPrefix_None p s : startsWith p s = false → stripPrefix p s = None.
Proof.
  intros Hs. destruct (stripPrefix p s) eqn:E; [| reflexivity].
  assert (startsWith p s = true) by (apply stripPrefix_startsWith; eauto).
  congruence.
Qed.

Lemma includes_cons c s sub : includes s sub = true → includes (String c s) sub = true.
Proof. intros Hs. simpl. rewrite Hs. now destruct (startsWith sub (String c s)). Qed.

Lemma includes_append_l a s sub : includes s sub = true → includes (a +:+ s) sub = true.
Proof. induction a as [|c a IH]; intros Hs; simpl in *; [assumption |]. apply includes_cons; auto. Qed.

Lemma includes_String c s sub :
  includes (String c s) sub = if startsWith sub (String c s) then true else includes s sub.
Proof. reflexivity. Qed.

Lemma includes_append_r s b sub : includes s sub = true → includes (s +:+ b) sub = true.
Proof.
  induction s as [|c s IH].
  - simpl. destruct sub; simpl; [destruct b; reflexivity | discriminate].
  - change (String c s +:+ b) with (String c (s +:+ b)).
    rewrite !includes_String.
    destruct (startsWith sub (String c s)) eqn:E.
    + intros _. apply startsWith_split in E as [r E].
      change (String c (s +:+ b)) with (String c s +:+ b).
      rewrite E, append_assoc, startsWith_append. reflexivity.
    + intros Hs. rewrite (IH Hs).
      destruct (startsWith sub (String c (s +:+ b))); reflexivity.
Qed.

Lemma includes_false_cons c s sub :
  includes (String c s) sub = false →
  startsWith sub (String c s) = false ∧ includes s sub = false.
Proof. simpl. destruct (startsWith sub (String c s)); [discriminate | auto]. Qed.

Lemma includes_split s sub :
  includes s sub = true → ∃ a b, s = a +:+ sub +:+ b.
Proof.
  induction s as [|c s IH]; simpl.
  - destruct (startsWith sub EmptyString) eqn:E; [| discriminate].
    intros _. apply startsWith_split in E as [r E]. exists EmptyString, r. exact E.
  - destruct (startsWith sub (String c s)) eqn:E.
    + intros _. apply startsWith_split in E as [r E]. exists EmptyString, r. exact E.
    + intros Hs. destruct (IH Hs) as (a & b & ->). now exists (String c a), b.
Qed.

Lemma arrayIncludes_In (l : list string) (x : string) : arrayIncludes l x = true ↔ In x l.
Proof.
  unfold arrayIncludes. rewrite existsb_exists. split.
  - intros (y & Hy & E). apply String.eqb_eq in E. now subst.
  - intros Hx. exists x. split; [assumption | apply String.eqb_refl].
Qed.

End StringFacts.

(** ** The regular expression *)

Section RegexFacts.

Import ActionRegex.
Implicit Types (s pre rest post g name : string) (c : ascii).

Lemma lazyGroup_String c s :
  lazyGroup (String c s) =
    if startsWith ".ts" (String c s) then Some EmptyString
    else if isLineTerminator c then None
    else match lazyGroup s with Some g => Some (String c g) | None => None end.
Proof. reflexivity. Qed.

Lemma exec_String c s :
  exec (String c s) = match matchHere (String c s) with Some g => Some g | None => exec s end.
Proof. reflexivity. Qed.

(** [.ts] cannot begin inside a name that does not contain it, even when
    [.ts] follows the name. *)
Lemma startsWith_ts_boundary c name post :
  startsWith ".ts" (String c name) = false →
  startsWith ".ts" (String c name +:+ ".ts" +:+ post) = false.
Proof.
  destruct name as [|c2 [|c3 name]]; simpl;
    repeat match goal with
           | |- context [Ascii.eqb ?x ?y] => destruct (Ascii.eqb_spec x y); subst
           end; simpl; congruence.
Qed.

Lemma lazyGroup_complete name post :
  singleLine name = true → includes name ".ts" = false →
  lazyGroup (name +:+ ".ts" +:+ post) = Some name.
Proof.
  induction name as [|c name IH]; intros Hline Hts.
  - reflexivity.
  - apply includes_false_cons in Hts as [Hhead Hts].
    simpl in Hline. apply andb_true_iff in Hline as [Hc Hline].
    change (String c name +:+ ".ts" +:+ post) with (String c (name +:+ ".ts" +:+ post)).
    rewrite lazyGroup_String.
    change (String c (name +:+ ".ts" +:+ post)) with (String c name +:+ ".ts" +:+ post).
    rewrite (startsWith_ts_boundary _ _ _ Hhead).
    apply negb_true_iff in Hc. rewrite Hc, (IH Hline Hts). reflexivity.
Qed.

Lemma lazyGroup_sound s g :
  lazyGroup s = Some g →
  ∃ post, s = g +:+ ".ts" +:+ post ∧ singleLine g = true ∧ includes g ".ts" = false.
Proof.
  revert g; induction s as [|c s IH]; intros g.
  - simpl. discriminate.
  - rewrite lazyGroup_String.
    destruct (startsWith ".ts" (String c s)) eqn:Hhead.
    + intros [= <-]. apply startsWith_split in Hhead as [post ->]. now exists post.
    + destruct (isLineTerminator c) eqn:Hc; [discriminate |].
      destruct (lazyGroup s) as [g'|] eqn:Hg; [| discriminate].
      intros [= <-]. destruct (IH _ eq_refl) as (post & -> & Hline & Hts).
      exists post. split; [reflexivity |]. split.
      * simpl. now rewrite Hc.
      * rewrite includes_String, Hts.
        destruct (startsWith ".ts" (String c g')) eqn:E; [| reflexivity].
        apply startsWith_split in E as [r E].
        change (String c (g' +:+ ".ts" +:+ post)) with (String c g' +:+ ".ts" +:+ post) in Hhead.
        now rewrite E, append_assoc, startsWith_append in Hhead.
Qed.

Lemma lazyGroup_total s :
  singleLine s = true → includes s ".ts" = true → is_Some (lazyGroup s).
Proof.
  induction s as [|c s IH]; intros Hline Hts.
  - discriminate.
  - rewrite lazyGroup_String. rewrite includes_String in Hts.
    destruct (startsWith ".ts" (String c s)); [eauto |].
    simpl in Hline. apply andb_true_iff in Hline as [Hc Hline].
    apply negb_true_iff in Hc. rewrite Hc.
    destruct (IH Hline Hts) as [g ->]. eauto.
Qed.

Lemma matchHere_actions rest : matchHere ("actions/" +:+ rest) = lazyGroup rest.
Proof. reflexivity. Qed.

Lemma matchHere_None s : startsWith "actions/" s = false → matchHere s = None.
Proof. intros Hs. unfold matchHere. now rewrite (stripPrefix_None _ _ Hs). Qed.

Lemma matchHere_sound s g :
  matchHere s = Some g → ∃ rest, s = "actions/" +:+ rest ∧ lazyGroup rest = Some g.
Proof.
  unfold matchHere. destruct (stripPrefix "actions/" s) as [rest|] eqn:E; [| discriminate].
  intros Hg. exists rest. split; [now apply stripPrefix_split | assumption].
Qed.

(** A literal [actions/] that begins in [pre] lies within [pre] followed by
    [actions]. *)
Lemma startsWith_actions_head c pre rest :
  startsWith "actions/" (String c pre +:+ "actions/" +:+ rest)
  = startsWith "actions/" (String c pre +:+ "actions").
Proof.
  change ("actions/" +:+ rest) with ("actions" +:+ "/" +:+ rest).
  rewrite <- append_assoc. apply startsWith_head.
  rewrite append_length. simpl. lia.
Qed.

Lemma exec_complete pre rest g :
  includes (pre +:+ "actions") "actions/" = false →
  lazyGroup rest = Some g →
  exec (pre +:+ "actions/" +:+ rest) = Some g.
Proof.
  intros Hpre Hg. induction pre as [|c pre IH].
  - change (EmptyString +:+ "actions/" +:+ rest) with (String "a" ("ctions/" +:+ rest)).
    rewrite exec_String.
    change (String "a" ("ctions/" +:+ rest)) with ("actions/" +:+ rest).
    now rewrite matchHere_actions, Hg.
  - change (String c pre +:+ "actions") with (String c (pre +:+ "actions")) in Hpre.
    apply includes_false_cons in Hpre as [Hhead Hpre].
    change (String c pre +:+ "actions/" +:+ rest) with (String c (pre +:+ "actions/" +:+ rest)).
    rewrite exec_String.
    change (String c (pre +:+ "actions/" +:+ rest)) with (String c pre +:+ "actions/" +:+ rest).
    rewrite matchHere_None; [now apply IH |].
    now rewrite startsWith_actions_head.
Qed.

Lemma exec_sound s g :
  exec s = Some g → ∃ pre rest, s = pre +:+ "actions/" +:+ rest ∧ lazyGroup rest = Some g.
Proof.
  induction s as [|c s IH].
  - simpl. discriminate.
  - rewrite exec_String. destruct (matchHere (String c s)) as [g'|] eqn:E.
    + intros [= ->]. apply matchHere_sound in E as (rest & -> & Hg).
      now exists EmptyString, rest.
    + intros Hs. destruct (IH Hs) as (pre & rest & -> & Hg).
      now exists (String c pre), rest.
Qed.

Lemma exec_no_actions s : includes s "actions/" = false → exec s = None.
Proof.
  intros Hs. destruct (exec s) as [g|] eqn:E; [| reflexivity].
  apply exec_sound in E as (pre & rest & -> & _).
  rewrite includes_append_l in Hs; [discriminate |].
  apply (includes_append_r "actions/" rest). reflexivity.
Qed.

Lemma exec_no_ts s : includes s ".ts" = false → exec s = None.
Proof.
  intros Hs. destruct (exec s) as [g|] eqn:E; [| reflexivity].
  apply exec_sound in E as (pre & rest & -> & Hg).
  apply lazyGroup_sound in Hg as (post & -> & _).
  rewrite includes_append_l in Hs; [discriminate |].
  apply (includes_append_l "actions/"), includes_append_l.
  apply (includes_append_r ".ts" post). reflexivity.
Qed.

Lemma singleLine_append a b : singleLine (a +:+ b) = singleLine a && singleLine b.
Proof. induction a as [|c a IH]; simpl; [reflexivity | now rewrite IH, andb_assoc]. Qed.

(** On one line, the leftmost match begins at the first [actions/]. *)
Lemma exec_first s g :
  singleLine s = true → exec s = Some g →
  ∃ pre rest, s = pre +:+ "actions/" +:+ rest ∧ lazyGroup rest = Some g
              ∧ includes (pre +:+ "actions") "actions/" = false.
Proof.
  induction s as [|c s IH]; intros Hline.
  - simpl. discriminate.
  - rewrite exec_String. destruct (matchHere (String c s)) as [g'|] eqn:E.
    + intros [= ->]. apply matchHere_sound in E as (rest & -> & Hg).
      now exists EmptyString, rest.
    + intros Hs. pose proof Hline as Hline'. simpl in Hline'.
      apply andb_true_iff in Hline' as [_ Hline'].
      destruct (IH Hline' Hs) as (pre & rest & -> & Hg & Hpre).
      exists (String c pre), rest. split; [reflexivity |]. split; [assumption |].
      change (String c pre +:+ "actions") with (String c (pre +:+ "actions")).
      rewrite includes_String, Hpre.
      change (String c (pre +:+ "actions")) with (String c pre +:+ "actions").
      rewrite <- (startsWith_actions_head c pre rest).
      destruct (startsWith "actions/" (String c pre +:+ "actions/" +:+ rest)) eqn:Hhead;
        [| reflexivity].
      exfalso. apply startsWith_split in Hhead as [r Hr].
      change (String c (pre +:+ "actions/" +:+ rest))
        with (String c pre +:+ "actions/" +:+ rest) in E, Hline.
      rewrite Hr, matchHere_actions in E. rewrite Hr, singleLine_append in Hline.
      apply andb_true_iff in Hline as [_ Hline].
      apply lazyGroup_sound in Hg as (post & -> & _).
      assert (Hin : includes (pre +:+ "actions/" +:+ g +:+ ".ts" +:+ post) ".ts" = true).
      { apply includes_append_l, (includes_append_l "actions/"), includes_append_l.
        apply (includes_append_r ".ts" post). reflexivity. }
      change (String c pre +:+ "actions/" +:+ g +:+ ".ts" +:+ post)
        with (String c (pre +:+ "actions/" +:+ g +:+ ".ts" +:+ post)) in Hr.
      change ("actions/" +:+ r) with (String "a" ("ctions/" +:+ r)) in Hr.
      injection Hr as _ Hr.
      assert (Hin' : includes ("ctions/" +:+ r) ".ts" = true).
      { transitivity (includes (pre +:+ "actions/" +:+ g +:+ ".ts" +:+ post) ".ts");
          [f_equal; symmetry; exact Hr | exact Hin]. }
      simpl in Hin'.
      destruct (lazyGroup_total r Hline Hin') as [? ?]. congruence.
Qed.

End RegexFacts.

(** ** Route derivation *)

Lemma getActionRoute_sound path r :
  getActionRoute path = Ok r →
  r ≠ EmptyString ∧ ActionRegex.exec path = Some r.
Proof.
  unfold getActionRoute. destruct (ActionRegex.exec path) as [[|c g]|]; [discriminate | | discriminate].
  intros [= <-]. split; [discriminate | reflexivity].
Qed.

Lemma getActionRoute_shape path r :
  getActionRoute path = Ok r →
  ∃ pre post, path = pre +:+ "actions/" +:+ r +:+ ".ts" +:+ post.
Proof.
  intros Hr. apply getActionRoute_sound in Hr as [_ Hr].
  apply exec_sound in Hr as (pre & rest & -> & Hg).
  apply lazyGroup_sound in Hg as (post & -> & _). now exists pre, post.
Qed.

(** C4 (as amended).  The pattern is fixed: the literal [actions/], the
    shortest run of characters on one line, the literal [.ts].  For an action
    root that ends in [actions] and holds no earlier [actions/], and a
    relative name that is not empty and contains neither a line terminator
    nor [.ts], the route of [<root>/<name>.ts] is [<name>], nested segments
    included.  A path without [actions/] or without [.ts] is refused with
    the route-parse error. *)
Theorem getActionRoute_spec :
  (∀ dir name,
      includes (dir +:+ "actions") "actions/" = false →
      name ≠ EmptyString →
      ActionRegex.singleLine name = true →
      includes name ".ts" = false →
      getActionRoute ((dir +:+ "actions") +:+ "/" +:+ name +:+ ".ts") = Ok name)
  ∧ (∀ path,
      includes path "actions/" = false ∨ includes path ".ts" = false →
      getActionRoute path
      = Throw (Error ("Could not parse action route from " +:+ path))).
Proof.
  split.
  - intros dir name Hdir Hname Hline Hts. unfold getActionRoute.
    rewrite append_assoc.
    change ("actions" +:+ "/" +:+ name +:+ ".ts")
      with ("actions/" +:+ name +:+ ".ts" +:+ EmptyString).
    rewrite (exec_complete dir (name +:+ ".ts" +:+ EmptyString) name Hdir).
    + destruct name; [contradiction | reflexivity].
    + now apply lazyGroup_complete.
  - intros path Hpath. unfold getActionRoute.
    assert (ActionRegex.exec path = None) as ->; [| reflexivity].
    destruct Hpath; [now apply exec_no_actions | now apply exec_no_ts].
Qed.

Lemma getActionRoute_spec_witness :
  getActionRoute "/proj/server/actions/a/b/name.ts" = Ok "a/b/name"
  ∧ getActionRoute "/proj/server/actions"
    = Throw (Error "Could not parse action route from /proj/server/actions").
Proof.
  split.
  - apply (proj1 getActionRoute_spec "/proj/server/" "a/b/name");
      [reflexivity | discriminate | reflexivity | reflexivity].
  - apply (proj2 getActionRoute_spec "/proj/server/actions"). left. reflexivity.
Defined.

(** C4 (as stated) fails on both sides: a file under the action root whose
    extension is not [.ts] has no route, a root that itself lies below a
    directory named [actions] yields more than the relative path, and a
    path outside the action root is given a route. *)
Lemma getActionRoute_counterexample :
  getActionRoute "/proj/server/actions/a/b/name.js"
    = Throw (Error "Could not parse action route from /proj/server/actions/a/b/name.js")
  ∧ getActionRoute "/home/actions/proj/server/actions/a/b/name.ts"
    = Ok "proj/server/actions/a/b/name"
  ∧ getActionRoute "/tmp/transactions/x.ts" = Ok "x".
Proof. repeat split; reflexivity. Qed.

(** C10, the route half as stated, fails across a line terminator: the
    first [actions/] is followed by a line feed, which [.] does not match,
    and the route is taken from the second. *)
Lemma getActionRoute_first_occurrence_counterexample :
  let path := "server/actions/" +:+ newline +:+ "actions/x.ts" in
  includes path "server/actions" = true
  ∧ getActionRoute path = Ok "x"
  ∧ ¬ matchesFirstOccurrence path "x".
Proof.
  split; [reflexivity |]. split; [reflexivity |].
  intros (pre & post & Hpath & Hfirst).
  do 17 (destruct pre as [|? pre];
         [ try discriminate Hpath; try discriminate Hfirst
         | injection Hpath as <- Hpath ]).
  do 11 (destruct pre as [|? pre]; [discriminate Hpath | injection Hpath as <- Hpath]).
  destruct pre; discriminate Hpath.
Qed.

(** ** Running the hooks symbolically *)

(** Unfolds the monad and the host primitives, leaving the decisions of the
    program as the matches to split on. *)
Ltac run_prims :=
  cbv beta iota delta
    [tryCatch when mbind M_bind mret M_ret throw liftResult gets modify
     liftFs existsSync fsp_mkdir fsp_rm fsp_writeFile fsp_appendFile
     logger_info logger_success logger_error addServerHandler updateTemplates addLoaderTypes
     setServerLoaders setServerHandlers setNitroHandlers setLoaderMap setLoaderTypesTemplate
     setTemplateUpdates setDisk setLogs
     serverLoaders serverHandlers nitroHandlers loaderMap loaderTypesTemplate
     templateUpdates disk logs fst snd].

Ltac run_in H :=
  cbv beta iota delta
    [tryCatch when mbind M_bind mret M_ret throw liftResult gets modify
     liftFs existsSync fsp_mkdir fsp_rm fsp_writeFile fsp_appendFile
     logger_info logger_success logger_error addServerHandler updateTemplates addLoaderTypes
     setServerLoaders setServerHandlers setNitroHandlers setLoaderMap setLoaderTypesTemplate
     setTemplateUpdates setDisk setLogs
     serverLoaders serverHandlers nitroHandlers loaderMap loaderTypesTemplate
     templateUpdates disk logs fst snd] in H.

(** Splits on a decision whose subject is not itself a decision. *)
Ltac split_head :=
  match goal with
  | |- context [match ?x with _ => _ end] =>
      lazymatch x with
      | context [match _ with _ => _ end] => fail
      | _ => destruct x eqn:?
      end
  end.

Ltac split_run := repeat (split_head; cbv beta iota).

Ltac split_head_in H :=
  match type of H with
  | context [match ?x with _ => _ end] =>
      lazymatch x with
      | context [match _ with _ => _ end] => fail
      | _ => destruct x eqn:?
      end
  end.

Ltac split_run_in H := repeat (split_head_in H; cbv beta iota in H).

(** ** The monad and the file system, step by step *)

Section Steps.

Context {A B : Type}.

Lemma bind_Ok (m : M A) (f : A → M B) w a w1 :
  m w = (Ok a, w1) → (m ≫= f) w = f a w1.
Proof. intros Hm. unfold mbind, M_bind. now rewrite Hm. Qed.

Lemma bind_Throw (m : M A) (f : A → M B) w e w1 :
  m w = (Throw e, w1) → (m ≫= f) w = (Throw e, w1).
Proof. intros Hm. unfold mbind, M_bind. now rewrite Hm. Qed.

Lemma bind_Ok_inv (m : M A) (f : A → M B) w b w2 :
  (m ≫= f) w = (Ok b, w2) → ∃ a w1, m w = (Ok a, w1) ∧ f a w1 = (Ok b, w2).
Proof.
  unfold mbind, M_bind. destruct (m w) as [[a|e] w1]; [eauto | discriminate].
Qed.

End Steps.

Lemma liftFs_Ok op w fs : op (disk w) = Ok fs → liftFs op w = (Ok tt, setDisk fs w).
Proof. intros Hop. unfold liftFs. now rewrite Hop. Qed.

Lemma liftFs_Ok_inv op w u w1 :
  liftFs op w = (Ok u, w1) → ∃ fs, op (disk w) = Ok fs ∧ w1 = setDisk fs w.
Proof.
  unfold liftFs. destruct (op (disk w)) as [fs|e]; [| discriminate].
  intros [= _ <-]. eauto.
Qed.

Lemma writeFile_Ok p data fs :
  Fs.isDir fs p = false → Fs.isDir fs (Fs.parent p) = true →
  Fs.writeFile p data fs = Ok (mkFS (dirs fs) (<[p := data]> (files fs))).
Proof. intros Hd Hp. unfold Fs.writeFile. now rewrite Hd, Hp. Qed.

Lemma writeFile_Ok_inv p data fs fs' :
  Fs.writeFile p data fs = Ok fs' →
  Fs.isDir fs p = false ∧ Fs.isDir fs (Fs.parent p) = true
  ∧ fs' = mkFS (dirs fs) (<[p := data]> (files fs)).
Proof.
  unfold Fs.writeFile. destruct (Fs.isDir fs p); [discriminate |].
  destruct (Fs.isDir fs (Fs.parent p)); [| discriminate].
  intros [= <-]. auto.
Qed.

Lemma appendFile_Ok p data fs :
  Fs.isDir fs p = false → Fs.isDir fs (Fs.parent p) = true →
  Fs.appendFile p data fs
  = Ok (mkFS (dirs fs) (<[p := default EmptyString (files fs !! p) +:+ data]> (files fs))).
Proof. intros Hd Hp. unfold Fs.appendFile. now rewrite Hd, Hp. Qed.

Lemma appendFile_Ok_inv p data fs fs' :
  Fs.appendFile p data fs = Ok fs' →
  fs' = mkFS (dirs fs) (<[p := default EmptyString (files fs !! p) +:+ data]> (files fs)).
Proof.
  unfold Fs.appendFile. destruct (Fs.isDir fs p); [discriminate |].
  destruct (Fs.isDir fs (Fs.parent p)); [| discriminate].
  now intros [= <-].
Qed.

(** Writing the banner and appending the code leaves exactly their
    concatenation in the file. *)
Lemma write_then_append p banner code fs :
  let fs1 := mkFS (dirs fs) (<[p := banner]> (files fs)) in
  mkFS (dirs fs1) (<[p := default EmptyString (files fs1 !! p) +:+ code]> (files fs1))
  = mkFS (dirs fs) (<[p := banner +:+ code]> (files fs)).
Proof. cbn. rewrite lookup_insert_eq. cbn. now rewrite insert_insert_eq. Qed.

(** ** Loader extraction *)

Section WriteLoader.

Context `{Toolchain}.

Lemma promoted_exports file e :
  exports file !! "loader" = Some e →
  exports (promoted file) !! "default" = Some e
  ∧ exports (promoted file) !! "loader" = None
  ∧ (∀ k, k ≠ "default" → k ≠ "loader" →
          exports (promoted file) !! k = exports file !! k)
  ∧ statements (promoted file) = statements file.
Proof.
  intros He. unfold promoted, exportsDelete, exportsAssign. rewrite He. simpl.
  split; [| split; [| split]].
  - rewrite lookup_delete_ne by discriminate. apply lookup_insert_eq.
  - apply lookup_delete_eq.
  - intros k Hd Hl. rewrite lookup_delete_ne by congruence.
    apply lookup_insert_ne. congruence.
  - reflexivity.
Qed.

(** What a run of [writeLoader] that returns has done. *)
Lemma writeLoader_returns file dir route w h w' :
  writeLoader file dir route w = (Ok h, w') →
  h = dir +:+ "/" +:+ route +:+ ".ts"
  ∧ ∃ code shaked,
      generateCode (promoted file) = Some code
      ∧ transform code = Some shaked
      ∧ Fs.isDir (disk w) h = false
      ∧ Fs.isDir (disk w) (Fs.parent h) = true
      ∧ w' = setDisk (mkFS (dirs (disk w))
                           (<[h := GENERATED_TEXT +:+ shaked]> (files (disk w)))) w.
Proof.
  unfold writeLoader. fold (promoted file).
  set (hd := dir +:+ "/" +:+ route +:+ ".ts").
  intros Hrun.
  apply bind_Ok_inv in Hrun as (code & w1 & Hcode & Hrun).
  destruct (generateCode (promoted file)) as [code'|] eqn:Hc; [| discriminate].
  injection Hcode as -> <-.
  apply bind_Ok_inv in Hrun as (shaked & w1 & Hshaked & Hrun).
  destruct (transform code) as [shaked'|] eqn:Hs; [| discriminate].
  injection Hshaked as -> <-.
  apply bind_Ok_inv in Hrun as (u1 & w1 & Hwrite & Hrun).
  apply liftFs_Ok_inv in Hwrite as (fs1 & Hwrite & ->).
  apply writeFile_Ok_inv in Hwrite as (Hd & Hp & ->).
  apply bind_Ok_inv in Hrun as (u2 & w2 & Happend & Hrun).
  apply liftFs_Ok_inv in Happend as (fs2 & Happend & ->).
  apply appendFile_Ok_inv in Happend as ->.
  injection Hrun as <- <-. split; [reflexivity |].
  exists code, shaked. do 4 (split; [first [assumption | reflexivity] |]).
  destruct w as [sl sh nh lm tt tu fs lg]. unfold setDisk. cbn.
  f_equal. apply (write_then_append hd GENERATED_TEXT shaked fs).
Qed.

(** And when it does return. *)
Lemma writeLoader_runs file dir route w code shaked :
  let h := dir +:+ "/" +:+ route +:+ ".ts" in
  generateCode (promoted file) = Some code →
  transform code = Some shaked →
  Fs.isDir (disk w) h = false →
  Fs.isDir (disk w) (Fs.parent h) = true →
  writeLoader file dir route w
  = (Ok h, setDisk (mkFS (dirs (disk w))
                         (<[h := GENERATED_TEXT +:+ shaked]> (files (disk w)))) w).
Proof.
  intros h Hcode Hshaked Hd Hp.
  unfold writeLoader. fold (promoted file). fold h.
  rewrite Hcode. erewrite bind_Ok by reflexivity.
  rewrite Hshaked. erewrite bind_Ok by reflexivity.
  erewrite bind_Ok by (apply liftFs_Ok, writeFile_Ok; assumption).
  erewrite bind_Ok by (apply liftFs_Ok, appendFile_Ok; assumption).
  destruct w as [sl sh nh lm tt tu fs lg]. unfold setDisk, mret, M_ret. cbn.
  do 2 f_equal. apply (write_then_append h GENERATED_TEXT shaked fs).
Qed.

(** [writeLoader] touches nothing but the disk. *)
Lemma writeLoader_frame file dir route w r w' :
  writeLoader file dir route w = (r, w') → ∃ fs, w' = setDisk fs w.
Proof.
  destruct w as [sl sh nh lm tt tu fs lg].
  unfold writeLoader. run_prims. split_run; intros [= <- <-]; eauto.
Qed.

(** C8.  The generated text is the banner followed by what the tool chain
    makes of the module, whatever the disk held before, the directory and the
    route: extracting again from the same source rewrites the file with the
    same bytes and changes nothing else, and two extractions of the same
    source, anywhere, write the same content. *)
Theorem writeLoader_deterministic file dir route w h w1 :
  writeLoader file dir route w = (Ok h, w1) →
  writeLoader file dir route w1 = (Ok h, w1)
  ∧ ∀ dir' route' w' h' w1',
      writeLoader file dir' route' w' = (Ok h', w1') →
      files (disk w1') !! h' = files (disk w1) !! h.
Proof.
  intros Hrun. apply writeLoader_returns in Hrun as (-> & code & shaked & Hc & Hs & Hd & Hp & ->).
  split.
  - rewrite (writeLoader_runs file dir route _ code shaked Hc Hs); [| exact Hd | exact Hp].
    destruct w as [sl sh nh lm tt tu [ds fs] lg]. unfold setDisk. cbn.
    now rewrite insert_insert_eq.
  - intros dir' route' w' h' w1' Hrun'.
    apply writeLoader_returns in Hrun' as (-> & code' & shaked' & Hc' & Hs' & _ & _ & ->).
    assert (code' = code) as -> by congruence.
    assert (shaked' = shaked) as -> by congruence.
    destruct w, w'. cbn. now rewrite !lookup_insert_eq.
Qed.

(** C9.  The module that is printed has the loader as its default export
    and no export named [loader], whether or not the source had a default
    export of its own: a different default export of the source is not the
    default of what is printed.  Every other export and statement is as
    loaded.  The generated file is the banner followed by that module
    printed and tree-shaken. *)
Theorem writeLoader_promotes_loader file dir route w h w' e :
  exports file !! "loader" = Some e →
  writeLoader file dir route w = (Ok h, w') →
  ∃ printed code shaked,
    exports printed !! "default" = Some e
    ∧ (∀ d, exports file !! "default" = Some d → d ≠ e →
            exports printed !! "default" ≠ Some d)
    ∧ exports printed !! "loader" = None
    ∧ (∀ k, k ≠ "default" → k ≠ "loader" → exports printed !! k = exports file !! k)
    ∧ statements printed = statements file
    ∧ generateCode printed = Some code
    ∧ transform code = Some shaked
    ∧ files (disk w') !! h = Some (GENERATED_TEXT +:+ shaked).
Proof.
  intros He Hrun.
  apply writeLoader_returns in Hrun as (-> & code & shaked & Hc & Hs & _ & _ & ->).
  destruct (promoted_exports file e He) as (Hdef & Hld & Hother & Hst).
  exists (promoted file), code, shaked.
  split; [assumption |]. split; [intros d _ Hd; rewrite Hdef; congruence |].
  repeat split; try assumption.
  destruct w. cbn. apply lookup_insert_eq.
Qed.

End WriteLoader.

(** ** The incremental updater *)

Ltac frame_writeLoader :=
  repeat match goal with
         | Hw : writeLoader _ _ _ _ = _ |- _ =>
             apply writeLoader_frame in Hw as [? Hw];
             first [ injection Hw as -> -> -> -> -> -> -> ->
                   | rewrite Hw; clear Hw; unfold setDisk ]
         end;
  rewrite ?negb_true_iff, ?negb_false_iff in *.

Section Watch.

Context `{Toolchain}.
Variable srcDir : string.

Lemma filter_absent (l : list string) (r : string) :
  arrayIncludes l r = false →
  List.filter (λ route, negb (String.eqb route r)) l = l.
Proof.
  unfold arrayIncludes. induction l as [|x l IH]; [reflexivity |].
  cbn. rewrite (String.eqb_sym x r). destruct (String.eqb r x); [discriminate |].
  cbn. intros Hl. now rewrite IH.
Qed.

Lemma filter_removes (l : list string) (r : string) :
  ¬ In r (List.filter (λ route, negb (String.eqb route r)) l).
Proof.
  rewrite filter_In. intros [_ Hr]. now rewrite String.eqb_refl in Hr.
Qed.

Lemma exists_file fs path text : files fs !! path = Some text → Fs.exists_ fs path = true.
Proof.
  intros Hf. unfold Fs.exists_, Fs.isFile. rewrite (bool_decide_eq_true_2 _); [apply orb_true_r |].
  eauto.
Qed.

Ltac run_watch :=
  unfold builderWatchHook, watchBody, removeLoaderFromServerLoader, loadFile, Fs.readFile;
  run_prims.

(** C2 (as amended).  A change event on an action file that is still on
    disk and no longer exports a loader takes the route out of the published
    name list and leaves the rest alone: the loader map, and with it the
    rendering of the declaration template, is what it was, no regeneration
    of the template is requested, and the disk, the generated file included,
    is untouched. *)
Theorem watch_loader_removed event path w route text file :
  includes path "server/actions" = true →
  getActionRoute path = Ok route →
  files (disk w) !! path = Some text →
  parseModule text = Some file →
  exports file !! "loader" = None →
  let w' := (builderWatchHook srcDir event path w).2 in
  serverLoaders w' = List.filter (λ r, negb (String.eqb r route)) (serverLoaders w)
  ∧ ¬ In route (serverLoaders w')
  ∧ loaderMap w' = loaderMap w
  ∧ loaderTypes w' = loaderTypes w
  ∧ templateUpdates w' = templateUpdates w
  ∧ disk w' = disk w.
Proof.
  intros Hscope Hroute Htext Hparse Hloader w'.
  assert (Hlist : serverLoaders w' = List.filter (λ r, negb (String.eqb r route)) (serverLoaders w)
                  ∧ loaderMap w' = loaderMap w
                  ∧ templateUpdates w' = templateUpdates w
                  ∧ disk w' = disk w).
  { subst w'. pose proof (exists_file _ _ _ Htext) as Hexists.
    assert (Hno : hasExport "loader" file = false).
    { unfold hasExport. rewrite Hloader. apply bool_decide_eq_false_2. now intros [? ?]. }
    destruct w as [sl sh nh lm tt tu fs lg]. cbn [disk] in Htext, Hexists.
    run_watch. rewrite Hscope, Hroute, Hexists. cbv beta iota delta [negb].
    rewrite Htext, Hparse, Hno.
    destruct (existsb (λ handler, (h_handler handler =? path)%string) sh);
      cbv beta iota delta [negb];
      destruct (arrayIncludes sl route) eqn:Hin; cbv beta iota;
      repeat split; try reflexivity; symmetry; now apply filter_absent. }
  destruct Hlist as (Hsl & Hlm & Htu & Hdisk).
  split; [exact Hsl |]. split; [rewrite Hsl; apply filter_removes |].
  split; [exact Hlm |]. split; [unfold loaderTypes; now rewrite Hlm |].
  split; assumption.
Qed.

Lemma watch_never_throws event path w :
  (builderWatchHook srcDir event path w).1 = Ok tt.
Proof.
  unfold builderWatchHook, tryCatch.
  destruct (watchBody srcDir event path w) as [[[]|e] w1]; reflexivity.
Qed.

Lemma watch_out_of_scope event path w :
  includes path "server/actions" = false →
  builderWatchHook srcDir event path w = (Ok tt, w).
Proof.
  intros Hscope. unfold builderWatchHook, watchBody, tryCatch, when. now rewrite Hscope.
Qed.

(** What one event does to the handler lists. *)
Lemma watch_handlers event path w r w' :
  builderWatchHook srcDir event path w = (r, w') →
  nitroHandlers w' = nitroHandlers w
  ∧ (serverHandlers w' = serverHandlers w
     ∨ ∃ route,
         getActionRoute path = Ok route
         ∧ existsb (λ handler, String.eqb (h_handler handler) path) (serverHandlers w) = false
         ∧ serverHandlers w'
           = serverHandlers w ++ [mkHandler (Some post) ("/" +:+ route) true path false]).
Proof.
  destruct w as [sl sh nh lm tt tu fs lg]. intros Hrun.
  unfold builderWatchHook, watchBody, removeLoaderFromServerLoader, loadFile, Fs.readFile in Hrun.
  run_in Hrun. cbn [nitroHandlers serverHandlers]. split_run_in Hrun; frame_writeLoader;
    injection Hrun as <- <-; (split; [reflexivity |]);
    first [left; reflexivity | right; eexists; repeat split; eassumption].
Qed.

Lemma existsb_backing_false path (l : list NitroEventHandler) :
  existsb (λ handler, String.eqb (h_handler handler) path) l = false →
  ¬ In path (map h_handler l).
Proof.
  intros Hl Hin. apply in_map_iff in Hin as (h & <- & Hin).
  assert (existsb (λ handler, String.eqb (h_handler handler) (h_handler h)) l = true);
    [| congruence].
  apply existsb_exists. exists h. split; [assumption | apply String.eqb_refl].
Qed.

(** C6 (as amended).  An event registers at most one handler, a lazy POST
    handler at [/<route>] backed by the event's path, and only when no handler
    of [nuxt.options.serverHandlers] is backed by that path; the handlers of
    the nitro configuration are not touched.  So the backing files of the
    server handlers stay pairwise distinct. *)
Theorem watch_registers_by_file event path w :
  let w' := (builderWatchHook srcDir event path w).2 in
  nitroHandlers w' = nitroHandlers w
  ∧ (serverHandlers w' = serverHandlers w
     ∨ ∃ route,
         getActionRoute path = Ok route
         ∧ (∀ h, In h (serverHandlers w) → h_handler h ≠ path)
         ∧ serverHandlers w'
           = serverHandlers w ++ [mkHandler (Some post) ("/" +:+ route) true path false])
  ∧ (List.NoDup (map h_handler (serverHandlers w)) →
     List.NoDup (map h_handler (serverHandlers w'))).
Proof.
  intros w'. subst w'.
  destruct (builderWatchHook srcDir event path w) as [r w'] eqn:Hrun. cbn [snd].
  apply watch_handlers in Hrun as (Hnitro & [Hsame | (route & Hroute & Hnone & Hadd)]).
  - rewrite Hsame. auto.
  - apply existsb_backing_false in Hnone.
    split; [assumption |]. split.
    + right. exists route. split; [assumption |]. split; [| assumption].
      intros h Hin Heq. apply Hnone. rewrite <- Heq. now apply in_map.
    + intros Hnodup. rewrite Hadd, map_app. cbn [map h_handler].
      apply NoDup_ListNoDup, NoDup_app. split; [now apply NoDup_ListNoDup |].
      split; [| apply NoDup_singleton].
      intros x Hx ->%list_elem_of_singleton. apply Hnone. now apply list_elem_of_In.
Qed.

(** What one event does to the log when its path is in scope. *)
Lemma watch_logs event path w r w' :
  includes path "server/actions" = true →
  builderWatchHook srcDir event path w = (r, w') →
  ∃ rest, logs w'
          = logs w ++ LogInfo ("[form-actions] changed '@" +:+ event +:+ "'") (Some path) :: rest.
Proof.
  destruct w as [sl sh nh lm tt tu fs lg]. intros Hscope Hrun.
  unfold builderWatchHook, watchBody, removeLoaderFromServerLoader, loadFile, Fs.readFile in Hrun.
  run_in Hrun. rewrite Hscope in Hrun. cbn [logs].
  split_run_in Hrun; frame_writeLoader; injection Hrun as <- <-;
    rewrite <- ?app_assoc; eexists; reflexivity.
Qed.

(** C10 (as amended).  The scope test is a substring test on the whole
    path: the hook leaves the world as it is exactly when the path does not
    contain [server/actions]; an event whose path contains it anywhere is
    handled, the first thing being the log line for the change.  For a path
    on one line, the route is then cut out after the first [actions/] of the
    path, wherever the configured action directory is. *)
Theorem watch_scope_is_substring event path w :
  (builderWatchHook srcDir event path w = (Ok tt, w)
   ↔ includes path "server/actions" = false)
  ∧ (includes path "server/actions" = true →
     ∃ rest, logs (builderWatchHook srcDir event path w).2
             = logs w ++ LogInfo ("[form-actions] changed '@" +:+ event +:+ "'") (Some path)
                         :: rest)
  ∧ (∀ route, ActionRegex.singleLine path = true →
              getActionRoute path = Ok route →
              matchesFirstOccurrence path route).
Proof.
  split; [| split].
  - split; [| apply watch_out_of_scope].
    intros Hrun. destruct (includes path "server/actions") eqn:Hscope; [| reflexivity].
    destruct (watch_logs _ _ _ _ _ Hscope Hrun) as [rest Hlogs].
    apply (f_equal (@List.length LogEntry)) in Hlogs.
    rewrite length_app in Hlogs. cbn [List.length] in Hlogs. lia.
  - intros Hscope.
    destruct (builderWatchHook srcDir event path w) as [r w'] eqn:Hrun.
    exact (watch_logs _ _ _ _ _ Hscope Hrun).
  - intros route Hline Hroute. apply getActionRoute_sound in Hroute as [_ Hexec].
    apply exec_first in Hexec as (pre & rest & -> & Hg & Hfirst); [| assumption].
    apply lazyGroup_sound in Hg as (post & -> & _). now exists pre, post.
Qed.

(** C7 (as amended).  Nothing thrown while an event is handled leaves the
    hook: the hook returns, and the error is the last line of the log, with
    the event named.  When the route cannot be derived, that is all that
    happens: after the log line for the change and the one for the error,
    the published names, the loader map, the handlers and the disk are what
    they were. *)
Theorem watch_catches_errors event path w :
  (builderWatchHook srcDir event path w).1 = Ok tt
  ∧ (∀ e w1,
        watchBody srcDir event path w = (Throw e, w1) →
        builderWatchHook srcDir event path w
        = (Ok tt, setLogs (logs w1 ++ [LogError ("[form-actions] error while handling '"
                                                  +:+ event +:+ "'") e]) w1))
  ∧ (∀ e,
        includes path "server/actions" = true →
        getActionRoute path = Throw e →
        builderWatchHook srcDir event path w
        = (Ok tt,
           setLogs (logs w ++ [LogInfo ("[form-actions] changed '@" +:+ event +:+ "'") (Some path);
                               LogError ("[form-actions] error while handling '"
                                         +:+ event +:+ "'") e]) w)).
Proof.
  split; [apply watch_never_throws |]. split.
  - intros e w1 Hbody. unfold builderWatchHook, tryCatch. now rewrite Hbody.
  - intros e Hscope Hroute. destruct w as [sl sh nh lm tt tu fs lg].
    unfold builderWatchHook, watchBody. run_prims. rewrite Hscope, Hroute.
    cbv beta iota. now rewrite <- app_assoc.
Qed.

End Watch.

(** ** The published names and the loader map *)

Section Registry.

Context `{Toolchain}.
Variable srcDir : string.

Lemma mapHas_mapSet k v m r :
  mapHas r (mapSet k v m) = mapHas r m || String.eqb k r.
Proof.
  unfold mapHas. induction m as [|[k' v'] m IH]; cbn.
  - now rewrite orb_false_r.
  - destruct (String.eqb_spec k' k) as [->|Hk]; cbn.
    + destruct (String.eqb k r); [reflexivity | now rewrite orb_false_r].
    + rewrite IH. apply orb_assoc.
Qed.

Lemma names_after_filter (names : list string) m a :
  (∀ r, In r names → mapHas r m = true) →
  ∀ r, In r (List.filter (λ route, negb (String.eqb route a)) names) → mapHas r m = true.
Proof. intros Hm r Hr. apply filter_In in Hr as [Hr _]. auto. Qed.

Lemma names_after_add (names : list string) m a v :
  (∀ r, In r names → mapHas r m = true) →
  ∀ r, In r (names ++ [a]) → mapHas r (mapSet a v m) = true.
Proof.
  intros Hm r Hr. rewrite mapHas_mapSet. apply in_app_or in Hr as [Hr | [-> | []]].
  - now rewrite (Hm r Hr).
  - rewrite String.eqb_refl. apply orb_true_r.
Qed.

Ltac names_leaf :=
  first [ assumption
        | now apply names_after_filter
        | now apply names_after_add ].

Lemma watch_namesRegistered event path w r w' :
  builderWatchHook srcDir event path w = (r, w') → namesRegistered w → namesRegistered w'.
Proof.
  destruct w as [sl sh nh lm tt tu fs lg]. intros Hrun.
  unfold builderWatchHook, watchBody, removeLoaderFromServerLoader, loadFile, Fs.readFile in Hrun.
  run_in Hrun. unfold namesRegistered. cbn [serverLoaders loaderMap].
  split_run_in Hrun; injection Hrun as <- <-; frame_writeLoader;
    cbn [serverLoaders loaderMap]; intros Hnames; names_leaf.
Qed.

Lemma scanAction_namesRegistered actionPath w r w' :
  scanAction srcDir actionPath w = (r, w') → namesRegistered w → namesRegistered w'.
Proof.
  destruct w as [sl sh nh lm tt tu fs lg]. intros Hrun.
  unfold scanAction, loadFile, Fs.readFile in Hrun.
  run_in Hrun. unfold namesRegistered. cbn [serverLoaders loaderMap].
  split_run_in Hrun; injection Hrun as <- <-; frame_writeLoader;
    cbn [serverLoaders loaderMap]; intros Hnames; names_leaf.
Qed.

Lemma keeps_bind {A B} P (m : M A) (f : A → M B) :
  keeps P m → (∀ a, keeps P (f a)) → keeps P (m ≫= f).
Proof.
  intros Hm Hf w r w' Hrun HP. unfold mbind, M_bind in Hrun.
  destruct (m w) as [[a|e] w1] eqn:Hstep.
  - exact (Hf a _ _ _ Hrun (Hm _ _ _ Hstep HP)).
  - injection Hrun as <- <-. exact (Hm _ _ _ Hstep HP).
Qed.

Lemma keeps_gets {A} P (f : World → A) : keeps P (gets f).
Proof. intros w r w' [= <- <-]. auto. Qed.

Lemma keeps_when P b m : keeps P m → keeps P (when b m).
Proof. intros Hm. destruct b; [exact Hm |]. intros w r w' [= <- <-]. auto. Qed.

Lemma keeps_modify P f : (∀ w, P w → P (f w)) → keeps P (modify f).
Proof. intros Hf w r w' [= <- <-]. auto. Qed.

Lemma keeps_liftFs P op : (∀ w fs, P w → P (setDisk fs w)) → keeps P (liftFs op).
Proof.
  intros Hd w r w'. unfold liftFs.
  destruct (op (disk w)) as [fs|e]; intros [= <- <-]; auto.
Qed.

Lemma keeps_forOf {A} P (l : list A) body : (∀ x, keeps P (body x)) → keeps P (forOf l body).
Proof.
  intros Hbody. induction l as [|x l IH]; cbn [forOf].
  - intros w r w' [= <- <-]. auto.
  - apply keeps_bind; auto.
Qed.

Lemma scan_namesRegistered entries :
  keeps namesRegistered (nitroConfigHook srcDir entries).
Proof.
  assert (Hdisk : ∀ w fs, namesRegistered w → namesRegistered (setDisk fs w))
    by (intros [] fs Hw; exact Hw).
  unfold nitroConfigHook, existsSync, fsp_rm, fsp_mkdir, fsp_writeFile, addLoaderTypes,
    logger_success.
  repeat first
    [ apply keeps_bind; [| intros ?]
    | apply keeps_when
    | apply keeps_gets
    | apply keeps_liftFs; exact Hdisk
    | apply keeps_forOf; intros actionPath w r w'; apply scanAction_namesRegistered
    | apply keeps_modify; intros [] Hw; exact Hw ].
Qed.

Lemma setup_namesRegistered w w' : setup srcDir w = (Ok tt, w') → namesRegistered w'.
Proof.
  assert (Hend : ∀ w0 r0 w0',
             (modify (setLoaderMap []) ≫= λ _, modify (setServerLoaders [])) w0 = (r0, w0') →
             namesRegistered w0').
  { intros [] r0 w0' [= <- <-]. intros route []. }
  unfold setup. intros Hrun.
  apply bind_Ok_inv in Hrun as (? & w1 & _ & Hrun).
  apply bind_Ok_inv in Hrun as (present & w2 & _ & Hrun).
  apply bind_Ok_inv in Hrun as (? & w3 & _ & Hrun).
  exact (Hend _ _ _ Hrun).
Qed.

(** C3 (as amended).  In every state the pipeline reaches, each name of
    the published list has its entry in the loader map. *)
Theorem reachable_namesRegistered w :
  reachable srcDir w → namesRegistered w.
Proof.
  induction 1 as [w w' Hsetup | w entries _ IH | w event path _ IH | w fs _ IH].
  - exact (setup_namesRegistered _ _ Hsetup).
  - destruct (nitroConfigHook srcDir entries w) as [r w'] eqn:Hrun.
    exact (scan_namesRegistered _ _ _ _ Hrun IH).
  - destruct (builderWatchHook srcDir event path w) as [r w'] eqn:Hrun.
    exact (watch_namesRegistered _ _ _ _ _ Hrun IH).
  - destruct w. exact IH.
Qed.

End Registry.

(** ** The full scan, file by file *)

Section Scan.

Context `{Toolchain}.
Variable srcDir : string.

(** A file with a default export and no loader export: one registration is
    pushed, with no method, not lazy, flagged as a form action; the disk is
    left alone. *)
Lemma scanAction_handler_only actionPath route text file w :
  getActionRoute actionPath = Ok route →
  files (disk w) !! actionPath = Some text →
  parseModule text = Some file →
  hasExport "default" file = true →
  hasExport "loader" file = false →
  scanAction srcDir actionPath w
  = (Ok tt,
     setLogs (logs w ++ [LogSuccess ("[form-actions] {form action} added : '"
                                     +:+ ("/" +:+ route) +:+ "'")])
       (setNitroHandlers
          (nitroHandlers w ++ [mkHandler None ("/" +:+ route) false actionPath true]) w)).
Proof.
  intros Hroute Htext Hparse Hdefault Hloader.
  destruct w as [sl sh nh lm tt tu fs lg]. cbn [disk] in Htext.
  unfold scanAction, loadFile, Fs.readFile. run_prims.
  now rewrite Hroute, Htext, Hparse, Hdefault, Hloader.
Qed.

(** A file with a loader export and no default export, when the generated
    file can be written: the file is written, one lazy GET registration at
    the loader route is pushed, backed by the generated file, and the route
    is published and entered in the loader map. *)
Lemma scanAction_loader_only actionPath route text file code shaked w :
  let handler := loaderDirectory srcDir +:+ "/" +:+ route +:+ ".ts" in
  getActionRoute actionPath = Ok route →
  files (disk w) !! actionPath = Some text →
  parseModule text = Some file →
  hasExport "default" file = false →
  hasExport "loader" file = true →
  generateCode (promoted file) = Some code →
  transform code = Some shaked →
  Fs.isDir (disk w) handler = false →
  Fs.isDir (disk w) (Fs.parent handler) = true →
  ∃ w', scanAction srcDir actionPath w = (Ok tt, w')
        ∧ nitroHandlers w'
          = nitroHandlers w ++ [mkHandler (Some get) (getLoaderRoute route) true handler false]
        ∧ serverHandlers w' = serverHandlers w
        ∧ files (disk w') = <[handler := GENERATED_TEXT +:+ shaked]> (files (disk w))
        ∧ serverLoaders w' = serverLoaders w ++ [route]
        ∧ loaderMap w'
          = mapSet route (mkLoader route handler (getLoaderRoute route)) (loaderMap w).
Proof.
  intros handler Hroute Htext Hparse Hdefault Hloader Hcode Hshaked Hd Hp.
  pose proof (writeLoader_runs file (loaderDirectory srcDir) route w code shaked
                Hcode Hshaked Hd Hp) as Hwrite.
  fold handler in Hwrite.
  destruct w as [sl sh nh lm tt tu fs lg]. cbn [disk] in Htext.
  unfold scanAction, loadFile, Fs.readFile. run_prims.
  rewrite Hroute, Htext, Hparse, Hdefault, Hloader. cbv beta iota.
  unfold setDisk in Hwrite. cbn [serverLoaders serverHandlers nitroHandlers loaderMap
    loaderTypesTemplate templateUpdates disk logs] in Hwrite.
  rewrite Hwrite. cbv beta iota.
  eexists. split; [reflexivity |]. cbn. repeat split; reflexivity.
Qed.

(** A nested route whose directory is missing below the loader directory:
    the write is refused and the scan of the file stops there, with nothing
    registered. *)
Lemma scanAction_loader_missing_directory actionPath route text file code shaked w :
  let handler := loaderDirectory srcDir +:+ "/" +:+ route +:+ ".ts" in
  getActionRoute actionPath = Ok route →
  files (disk w) !! actionPath = Some text →
  parseModule text = Some file →
  hasExport "default" file = false →
  hasExport "loader" file = true →
  generateCode (promoted file) = Some code →
  transform code = Some shaked →
  Fs.isDir (disk w) handler = false →
  Fs.isDir (disk w) (Fs.parent handler) = false →
  scanAction srcDir actionPath w = (Throw (ErrnoException "ENOENT" handler), w).
Proof.
  intros handler Hroute Htext Hparse Hdefault Hloader Hcode Hshaked Hd Hp.
  destruct w as [sl sh nh lm tt tu fs lg]. cbn [disk] in Htext, Hd, Hp.
  unfold scanAction, loadFile, Fs.readFile, writeLoader, Fs.writeFile. run_prims.
  rewrite Hroute, Htext, Hparse, Hdefault, Hloader. cbv beta iota.
  fold (promoted file). rewrite Hcode, Hshaked. cbv beta iota.
  subst handler. unfold Fs.writeFile. now rewrite Hd, Hp.
Qed.

End Scan.

(** ** The pipeline on concrete projects *)

Section Examples.

Import Toy.

Example scan_example :
  map routeKey (registrations scanned)
  = [(None, "/login"); (Some get, "/__loaders__/profile");
     (None, "/search"); (Some get, "/__loaders__/search")]
  ∧ serverLoaders scanned = ["profile"; "search"].
Proof. vm_compute. split; reflexivity. Qed.

(** C1, on a nested action.  [server/actions/a/b.ts] exports a loader
    only; its route is [a/b], and the generated file would be
    [.loader/a/b.ts].  The scan has just recreated [.loader] with nothing in
    it but [.gitignore], so the write is refused: the scan stops with
    [ENOENT], no GET registration is made and no file is generated. *)
Theorem scan_nested_loader_aborts :
  let run := nitroConfigHook "/proj" [DirEnt "a" [FileEnt "b.ts"]] (world nested) in
  getActionRoute "/proj/server/actions/a/b.ts" = Ok "a/b"
  ∧ run.1 = Throw (ErrnoException "ENOENT" "/proj/server/.loader/a/b.ts")
  ∧ registrations run.2 = []
  ∧ serverLoaders run.2 = []
  ∧ generatedFiles "/proj" run.2 = ["/proj/server/.loader/.gitignore"].
Proof. vm_compute. repeat split; reflexivity. Qed.

(** C5, on [server/actions/login.ts] with a default export only.  The scan
    makes exactly one registration, at [/login], and generates no file; the
    registration carries no method and is not lazy, where the incremental
    updater registers the same file as a lazy POST handler. *)
Theorem scan_handler_only_has_no_method :
  let run := nitroConfigHook "/proj" [FileEnt "login.ts"] (world single) in
  run.1 = Ok tt
  ∧ registrations run.2
    = [mkHandler None "/login" false "/proj/server/actions/login.ts" true]
  ∧ generatedFiles "/proj" run.2 = ["/proj/server/.loader/.gitignore"]
  ∧ serverHandlers
      (builderWatchHook "/proj" "change" "/proj/server/actions/login.ts" run.2).2
    = [mkHandler (Some post) "/login" true "/proj/server/actions/login.ts" false].
Proof. vm_compute. repeat split; reflexivity. Qed.

(** C2 (as stated) fails on the declaration artifact.  After the change
    event on [profile.ts], whose loader export is gone, the published list
    is down to [search], but the loader map still holds [profile], the
    template renders the union of both names, and no regeneration of the
    template has been requested. *)
Lemma change_keeps_declared_name :
  serverLoaders scanned = ["profile"; "search"]
  ∧ parse noExports = Some (mkModule ∅ [])
  ∧ serverLoaders stripped = ["search"]
  ∧ loaderNameUnion (mapValues (loaderMap stripped))
    = dquote +:+ "profile" +:+ dquote +:+ " | " +:+ dquote +:+ "search" +:+ dquote
  ∧ templateUpdates stripped = 0.
Proof. vm_compute. repeat split; reflexivity. Qed.

Lemma stripped_reachable : reachable "/proj" stripped.
Proof.
  unfold stripped, edit, scanned. apply reach_watch, reach_edit, reach_scan.
  apply (reach_setup "/proj" (world example)). vm_compute. reflexivity.
Qed.

(** C3 (as stated) fails in one direction.  The same state, which the
    pipeline reaches, has [profile] in the loader map and not in the published
    list. *)
Lemma map_entry_without_name :
  reachable "/proj" stripped
  ∧ mapHas "profile" (loaderMap stripped) = true
  ∧ ¬ In "profile" (serverLoaders stripped).
Proof.
  split; [exact stripped_reachable |]. split; [vm_compute; reflexivity |].
  vm_compute. intros [[=] | []].
Qed.

(** C6 (as stated) fails.  [login.ts] and [login.tsx] both derive the
    route [login]: a scan registers [/login] twice, and when the two files
    appear after the scan, the updater registers POST [/login] twice. *)
Lemma same_route_registered_twice :
  let run := nitroConfigHook "/proj" [FileEnt "login.ts"; FileEnt "login.tsx"] (world twins) in
  run.1 = Ok tt
  ∧ map routeKey (registrations run.2) = [(None, "/login"); (None, "/login")]
  ∧ map routeKey (registrations twinsAdded) = [(Some post, "/login"); (Some post, "/login")]
  ∧ ¬ List.NoDup (map routeKey (registrations twinsAdded)).
Proof.
  vm_compute. repeat split; try reflexivity.
  intros Hnodup. inversion Hnodup as [|x l Hnotin _]. apply Hnotin. now left.
Qed.

(** C7 (as stated) fails on the removal.  The event names
    [profile.js], for which no route can be derived, while [profile] is a
    published loader: the error is logged and the list and the map are
    left as they were. *)
Lemma derivation_failure_removes_nothing :
  let path := "/proj/server/actions/profile.js" in
  let run := builderWatchHook "/proj" "unlink" path scanned in
  includes path "server/actions" = true
  ∧ getActionRoute path = Throw (Error ("Could not parse action route from " +:+ path))
  ∧ In "profile" (serverLoaders scanned)
  ∧ run.1 = Ok tt
  ∧ serverLoaders run.2 = serverLoaders scanned
  ∧ loaderMap run.2 = loaderMap scanned.
Proof. vm_compute. repeat split; try reflexivity. now left. Qed.

Lemma getActionRoute_outside_root :
  getActionRoute "/other/server/actions/x.ts" = Ok "x".
Proof. reflexivity. Qed.

Lemma watch_loader_removed_witness :
  let w := edit "/proj/server/actions/profile.ts" noExports scanned in
  let w' := (builderWatchHook "/proj" "change" "/proj/server/actions/profile.ts" w).2 in
  serverLoaders w' = List.filter (λ r, negb (String.eqb r "profile")) (serverLoaders w)
  ∧ ¬ In "profile" (serverLoaders w')
  ∧ loaderMap w' = loaderMap w
  ∧ loaderTypes w' = loaderTypes w
  ∧ templateUpdates w' = templateUpdates w
  ∧ disk w' = disk w.
Proof.
  intros w.
  apply (watch_loader_removed "/proj" "change" "/proj/server/actions/profile.ts" w
           "profile" noExports (loaded noExports));
    vm_compute; reflexivity.
Defined.

Lemma reachable_namesRegistered_witness :
  reachable "/proj" stripped ∧ namesRegistered stripped.
Proof.
  assert (Hreach : reachable "/proj" stripped).
  { unfold stripped, edit, scanned. apply reach_watch, reach_edit, reach_scan.
    apply (reach_setup "/proj" (world example)). vm_compute. reflexivity. }
  split; [exact Hreach |].
  exact (reachable_namesRegistered "/proj" stripped Hreach).
Defined.

Lemma watch_registers_by_file_witness :
  let w := edit "/proj/server/actions/profile.ts" noExports scanned in
  List.NoDup (map h_handler
                (serverHandlers
                   (builderWatchHook "/proj" "change" "/proj/server/actions/profile.ts" w).2)).
Proof.
  intros w.
  apply (proj2 (proj2 (watch_registers_by_file "/proj" "change"
                         "/proj/server/actions/profile.ts" w))).
  vm_compute. constructor.
Defined.

Lemma watch_catches_errors_witness :
  builderWatchHook "/proj" "unlink" "/proj/server/actions/profile.js" scanned
  = (Ok tt,
     setLogs (logs scanned
              ++ [LogInfo "[form-actions] changed '@unlink'"
                    (Some "/proj/server/actions/profile.js");
                  LogError "[form-actions] error while handling 'unlink'"
                    (Error "Could not parse action route from /proj/server/actions/profile.js")])
       scanned).
Proof.
  apply (proj2 (proj2 (watch_catches_errors "/proj" "unlink"
                         "/proj/server/actions/profile.js" scanned)));
    vm_compute; reflexivity.
Defined.

Lemma writeLoader_deterministic_witness :
  let w1 := (writeLoader (loaded both) "/proj/server/.loader" "search" scanned).2 in
  writeLoader (loaded both) "/proj/server/.loader" "search" w1
  = (Ok "/proj/server/.loader/search.ts", w1).
Proof.
  intros w1.
  assert (Hrun : writeLoader (loaded both) "/proj/server/.loader" "search" scanned
                 = (Ok "/proj/server/.loader/search.ts", w1))
    by (subst w1; vm_compute; reflexivity).
  exact (proj1 (writeLoader_deterministic _ _ _ _ _ _ Hrun)).
Defined.

Lemma writeLoader_promotes_loader_witness :
  let w' := (writeLoader (loaded both) "/proj/server/.loader" "search" scanned).2 in
  ∃ printed code shaked,
    exports printed !! "default" = Some "defineServerLoader(load)"
    ∧ (∀ d, exports (loaded both) !! "default" = Some d → d ≠ "defineServerLoader(load)" →
            exports printed !! "default" ≠ Some d)
    ∧ exports printed !! "loader" = None
    ∧ (∀ k, k ≠ "default" → k ≠ "loader" → exports printed !! k = exports (loaded both) !! k)
    ∧ statements printed = statements (loaded both)
    ∧ generateCode printed = Some code
    ∧ transform code = Some shaked
    ∧ files (disk w') !! "/proj/server/.loader/search.ts" = Some (GENERATED_TEXT +:+ shaked).
Proof.
  intros w'.
  assert (Hrun : writeLoader (loaded both) "/proj/server/.loader" "search" scanned
                 = (Ok "/proj/server/.loader/search.ts", w'))
    by (subst w'; vm_compute; reflexivity).
  assert (Hloader : exports (loaded both) !! "loader" = Some "defineServerLoader(load)")
    by (vm_compute; reflexivity).
  exact (writeLoader_promotes_loader _ _ _ _ _ _ _ Hloader Hrun).
Defined.

Lemma watch_scope_is_substring_witness :
  (∃ rest, logs (builderWatchHook "/proj" "add" "/other/server/actions/x.ts" scanned).2
           = logs scanned ++ LogInfo "[form-actions] changed '@add'"
                               (Some "/other/server/actions/x.ts") :: rest)
  ∧ matchesFirstOccurrence "/other/server/actions/x.ts" "x".
Proof.
  destruct (watch_scope_is_substring "/proj" "add" "/other/server/actions/x.ts" scanned)
    as (_ & Hlog & Hfirst).
  split; [apply Hlog; reflexivity | apply Hfirst; reflexivity].
Defined.

End Examples.

(** * Further properties *)

(** ** The walk *)

Section Walk.

Lemma startsWith_prefix a b p : startsWith (a +:+ b) p = true → startsWith a p = true.
Proof.
  intros Hp. apply startsWith_split in Hp as [r ->].
  rewrite append_assoc. apply startsWith_append.
Qed.

(** Induction over a directory tree. *)
Lemma Dirent_tree_ind (P : Dirent → Prop) :
  (∀ name, P (FileEnt name)) →
  (∀ name entries, Forall P entries → P (DirEnt name entries)) →
  ∀ entry, P entry.
Proof.
  intros Hfile Hdir. fix IH 1. intros [name | name entries]; [apply Hfile |].
  apply Hdir. induction entries as [|e entries IHl]; constructor; [apply IH | exact IHl].
Qed.

Lemma walkEntry_below entry :
  ∀ dir p, In p (walkEntry dir entry) → startsWith (dir +:+ "/") p = true.
Proof.
  induction entry as [n | n entries IH] using Dirent_tree_ind; intros dir p.
  - cbn. intros [<- | []]. unfold pathResolve.
    rewrite <- append_assoc. apply startsWith_append.
  - cbn [walkEntry]. intros Hp. apply in_flat_map in Hp as (e & He & Hp).
    rewrite List.Forall_forall in IH. apply (IH e He) in Hp.
    unfold pathResolve in Hp. rewrite !append_assoc in Hp.
    rewrite <- append_assoc in Hp. exact (startsWith_prefix _ _ _ Hp).
Qed.

(** X1.  Every path the walk yields lies below the directory walked: it
    is the directory, a separator and more, so never the directory itself
    and never a path outside it. *)
Theorem walkFiles_below dir entries p :
  In p (walkFiles dir entries) →
  Fs.within dir p = true ∧ p ≠ dir ∧ ∃ rest, p = dir +:+ "/" +:+ rest.
Proof.
  intros Hp. apply in_flat_map in Hp as (e & _ & Hp).
  apply walkEntry_below in Hp. pose proof Hp as Hsplit.
  apply startsWith_split in Hsplit as [rest Hrest]. rewrite append_assoc in Hrest.
  split; [| split; [| now exists rest]].
  - unfold Fs.within. rewrite Hp. apply orb_true_r.
  - intros ->. apply (f_equal String.length) in Hrest.
    rewrite append_length in Hrest. cbn in Hrest. lia.
Qed.

Lemma walkFiles_below_witness :
  Fs.within "/proj/server/actions" "/proj/server/actions/a/b.ts" = true
  ∧ "/proj/server/actions/a/b.ts" ≠ "/proj/server/actions"
  ∧ ∃ rest, "/proj/server/actions/a/b.ts" = "/proj/server/actions" +:+ "/" +:+ rest.
Proof.
  apply (walkFiles_below "/proj/server/actions" [DirEnt "a" [FileEnt "b.ts"]]).
  cbn. left. reflexivity.
Defined.



End Walk.

(** ** Routes, URLs and generated files *)

Section Routes.

Context `{Toolchain}.

(** X3.  A derived route is never empty, lies on one line and does not
    contain [.ts]; the path reads: something, [actions/], the route, [.ts],
    something. *)
Theorem getActionRoute_result path route :
  getActionRoute path = Ok route →
  route ≠ EmptyString
  ∧ ActionRegex.singleLine route = true
  ∧ includes route ".ts" = false
  ∧ ∃ pre post, path = pre +:+ "actions/" +:+ route +:+ ".ts" +:+ post.
Proof.
  intros Hroute. apply getActionRoute_sound in Hroute as [Hne Hexec].
  apply exec_sound in Hexec as (pre & rest & -> & Hg).
  apply lazyGroup_sound in Hg as (post & -> & Hline & Hts).
  repeat split; try assumption. now exists pre, post.
Qed.

Lemma getActionRoute_result_witness :
  "a.test" ≠ EmptyString
  ∧ ActionRegex.singleLine "a.test" = true
  ∧ includes "a.test" ".ts" = false
  ∧ ∃ pre post, "/proj/server/actions/a.test.ts.bak"
                = pre +:+ "actions/" +:+ "a.test" +:+ ".ts" +:+ post.
Proof.
  apply (getActionRoute_result "/proj/server/actions/a.test.ts.bak" "a.test"). reflexivity.
Defined.

Lemma append_cancel_r a b c : a +:+ c = b +:+ c → a = b.
Proof.
  revert b; induction a as [|x a IH]; intros [|y b] Heq.
  - reflexivity.
  - apply (f_equal String.length) in Heq. cbn in Heq. rewrite append_length in Heq. lia.
  - apply (f_equal String.length) in Heq. cbn in Heq. rewrite append_length in Heq. lia.
  - cbn in Heq. injection Heq as -> Heq. f_equal. now apply IH.
Qed.

Lemma append_cancel_l a b c : a +:+ b = a +:+ c → b = c.
Proof. induction a as [|x a IH]; cbn; [auto |]. intros [= Heq]. auto. Qed.

(** X4.  Distinct routes never share a generated file or a loader URL:
    two extractions into the same directory for different routes return
    different files, and the loader URLs of the two routes differ. *)
Theorem loader_targets_distinct file1 file2 dir r1 r2 w1 w2 h1 h2 w1' w2' :
  writeLoader file1 dir r1 w1 = (Ok h1, w1') →
  writeLoader file2 dir r2 w2 = (Ok h2, w2') →
  r1 ≠ r2 →
  h1 ≠ h2 ∧ getLoaderRoute r1 ≠ getLoaderRoute r2.
Proof.
  intros Hrun1 Hrun2 Hne.
  apply writeLoader_returns in Hrun1 as (-> & _).
  apply writeLoader_returns in Hrun2 as (-> & _).
  split; intros Heq; apply Hne.
  - apply append_cancel_l, append_cancel_l in Heq. now apply append_cancel_r in Heq.
  - unfold getLoaderRoute in Heq.
    now apply append_cancel_l, append_cancel_l, append_cancel_l in Heq.
Qed.

End Routes.

(** ** More on the full scan *)

Lemma bind_inv {A B : Type} (m : M A) (f : A → M B) w r w2 :
  (m ≫= f) w = (r, w2) →
  (∃ a w1, m w = (Ok a, w1) ∧ f a w1 = (r, w2))
  ∨ (∃ e, m w = (Throw e, w2) ∧ r = Throw e).
Proof.
  unfold mbind, M_bind. destruct (m w) as [[a|e] w1]; [eauto |].
  intros [= <- <-]. eauto.
Qed.

Lemma forOf_stops {A : Type} (body : A → M unit) x (l : list A) :
  In x l → (∀ w, ∃ e w', body x w = (Throw e, w')) →
  ∀ w, ∃ e w', forOf l body w = (Throw e, w').
Proof.
  intros Hx Hthrow. induction l as [|y l IH]; [destruct Hx |]. intros w.
  cbn [forOf]. unfold mbind, M_bind.
  destruct (body y w) as [[[]|e] w1] eqn:Hy; [| eauto].
  destruct Hx as [-> | Hx]; [| exact (IH Hx w1)].
  destruct (Hthrow w) as (e & w' & Hbody). congruence.
Qed.

Section ScanMore.

Context `{Toolchain}.
Variable srcDir : string.


(** X6.  A file that parses and has neither export is passed over: the
    scan of the file returns and the world is exactly what it was. *)
Theorem scanAction_no_exports actionPath route text file w :
  getActionRoute actionPath = Ok route →
  files (disk w) !! actionPath = Some text →
  parseModule text = Some file →
  hasExport "default" file = false →
  hasExport "loader" file = false →
  scanAction srcDir actionPath w = (Ok tt, w).
Proof.
  intros Hroute Htext Hparse Hdefault Hloader.
  destruct w as [sl sh nh lm tt tu fs lg]. cbn [disk] in Htext.
  unfold scanAction, loadFile, Fs.readFile. run_prims.
  now rewrite Hroute, Htext, Hparse, Hdefault, Hloader.
Qed.

Lemma scanAction_no_route actionPath e w :
  getActionRoute actionPath = Throw e → scanAction srcDir actionPath w = (Throw e, w).
Proof.
  intros Hroute. unfold scanAction, liftResult, mbind, M_bind. now rewrite Hroute.
Qed.

(** The scan of a file leaves the server handlers and the template
    registration alone. *)
Lemma scanAction_frame actionPath (sh : list NitroEventHandler) (tt : bool) :
  keeps (λ w, serverHandlers w = sh ∧ loaderTypesTemplate w = tt)
        (scanAction srcDir actionPath).
Proof.
  intros w r w' Hrun. destruct w as [sl sh0 nh lm tt0 tu fs lg].
  unfold scanAction, loadFile, Fs.readFile in Hrun. run_in Hrun.
  cbn [serverHandlers loaderTypesTemplate].
  split_run_in Hrun; injection Hrun as <- <-; frame_writeLoader;
    cbn [serverHandlers loaderTypesTemplate]; auto.
Qed.

(** X7.  The scan is strict about routes: when the walk yields a path for
    which no route can be derived, the hook throws, whatever else is in the
    directory; the loader types template is then not registered, and the
    server handlers are as before. *)
Theorem scan_requires_routes entries path e w :
  In path (walkFiles (actionDirectoryPath srcDir) entries) →
  getActionRoute path = Throw e →
  let run := nitroConfigHook srcDir entries w in
  (∃ e', run.1 = Throw e')
  ∧ loaderTypesTemplate run.2 = loaderTypesTemplate w
  ∧ serverHandlers run.2 = serverHandlers w.
Proof.
  intros Hin Hroute run. subst run.
  set (Q := λ w0 : World, serverHandlers w0 = serverHandlers w
                          ∧ loaderTypesTemplate w0 = loaderTypesTemplate w).
  assert (HQdisk : ∀ w0 fs, Q w0 → Q (setDisk fs w0)) by (intros [] fs HQ; exact HQ).
  assert (Hgoal : ∀ r w', nitroConfigHook srcDir entries w = (r, w') →
                          (∃ e', r = Throw e') ∧ Q w').
  { intros r w' Hrun. unfold nitroConfigHook in Hrun.
    apply bind_inv in Hrun as [(present & w1 & Hstep & Hrun) | (e1 & Hstep & ->)];
      [| discriminate Hstep].
    injection Hstep as <- <-.
    assert (HQ : Q w) by (split; reflexivity).
    apply bind_inv in Hrun as [([] & w2 & Hstep & Hrun) | (e1 & Hstep & ->)].
    2:{ split; [eauto |].
        exact (keeps_when Q _ _ (keeps_liftFs Q _ HQdisk) _ _ _ Hstep HQ). }
    apply (keeps_when Q _ _ (keeps_liftFs Q _ HQdisk) _ _ _ Hstep) in HQ.
    apply bind_inv in Hrun as [([] & w3 & Hstep2 & Hrun) | (e1 & Hstep2 & ->)].
    2:{ split; [eauto |]. exact (keeps_liftFs Q _ HQdisk _ _ _ Hstep2 HQ). }
    apply (keeps_liftFs Q _ HQdisk _ _ _ Hstep2) in HQ.
    apply bind_inv in Hrun as [([] & w4 & Hstep3 & Hrun) | (e1 & Hstep3 & ->)].
    2:{ split; [eauto |]. exact (keeps_liftFs Q _ HQdisk _ _ _ Hstep3 HQ). }
    apply (keeps_liftFs Q _ HQdisk _ _ _ Hstep3) in HQ.
    apply bind_inv in Hrun as [([] & w5 & Hstep4 & Hrun) | (e1 & Hstep4 & ->)].
    - destruct (forOf_stops (scanAction srcDir) path _ Hin
                  (λ w0, ex_intro _ e (ex_intro _ w0 (scanAction_no_route path e w0 Hroute))) w4)
        as (e' & w'' & Hthrow). congruence.
    - split; [eauto |].
      exact (keeps_forOf Q _ _ (λ p, scanAction_frame p _ _) _ _ _ Hstep4 HQ). }
  destruct (nitroConfigHook srcDir entries w) as [r w'] eqn:Hrun.
  destruct (Hgoal r w' eq_refl) as ((e' & ->) & Hsh & Htt). cbn [fst snd]. eauto.
Qed.

End ScanMore.

(** ** More on the incremental updater *)

Section WatchMore.

Context `{Toolchain}.
Variable srcDir : string.

(** X9.  Removing a loader always returns.  Afterwards the published list
    holds exactly the other names, in their order, every copy of the route
    being dropped; nothing else changes but the log.  Removing a route that
    is not published changes nothing at all, so removing twice is removing
    once. *)
Theorem removeLoader_spec route w :
  let run := removeLoaderFromServerLoader route w in
  run.1 = Ok tt
  ∧ serverLoaders run.2 = List.filter (λ r, negb (String.eqb r route)) (serverLoaders w)
  ∧ (∀ r, In r (serverLoaders run.2) ↔ In r (serverLoaders w) ∧ r ≠ route)
  ∧ (loaderMap run.2 = loaderMap w ∧ serverHandlers run.2 = serverHandlers w
     ∧ nitroHandlers run.2 = nitroHandlers w ∧ disk run.2 = disk w)
  ∧ (¬ In route (serverLoaders w) → run.2 = w)
  ∧ removeLoaderFromServerLoader route run.2 = (Ok tt, run.2).
Proof.
  intros run. subst run. destruct w as [sl sh nh lm tt tu fs lg].
  assert (Hfilter : ∀ l r, In r (List.filter (λ r, negb (String.eqb r route)) l)
                           ↔ In r l ∧ r ≠ route).
  { intros l r. rewrite filter_In, negb_true_iff, String.eqb_neq. reflexivity. }
  assert (Hgone : ∀ l, arrayIncludes (List.filter (λ r, negb (String.eqb r route)) l) route
                       = false).
  { intros l. destruct (arrayIncludes _ route) eqn:Hin; [| reflexivity].
    apply arrayIncludes_In, Hfilter in Hin as [_ Hne]. congruence. }
  unfold removeLoaderFromServerLoader. run_prims.
  destruct (arrayIncludes sl route) eqn:Hin; cbv beta iota.
  - split; [reflexivity |]. split; [reflexivity |]. split; [apply Hfilter |].
    split; [auto |]. split.
    + intros Hout. exfalso. apply Hout. now apply arrayIncludes_In.
    + now rewrite Hgone.
  - rewrite Hin. split; [reflexivity |].
    split; [symmetry; now apply filter_absent |]. split.
    + intros r. split; [| tauto]. intros Hr. split; [assumption |]. intros ->.
      apply arrayIncludes_In in Hr. congruence.
    + auto.
Qed.

(** X10.  An event for a path that is no longer on disk unpublishes the
    route and does nothing else: the handlers registered for the file stay
    registered, the entry stays in the loader map, the generated file stays
    on disk and no regeneration of the template is requested. *)
Theorem watch_deleted_file event path route w :
  includes path "server/actions" = true →
  getActionRoute path = Ok route →
  Fs.exists_ (disk w) path = false →
  let w' := (builderWatchHook srcDir event path w).2 in
  serverLoaders w' = List.filter (λ r, negb (String.eqb r route)) (serverLoaders w)
  ∧ serverHandlers w' = serverHandlers w
  ∧ nitroHandlers w' = nitroHandlers w
  ∧ loaderMap w' = loaderMap w
  ∧ templateUpdates w' = templateUpdates w
  ∧ disk w' = disk w.
Proof.
  intros Hscope Hroute Hgone w'. subst w'.
  destruct w as [sl sh nh lm tt tu fs lg]. cbn [disk] in Hgone.
  unfold builderWatchHook, watchBody, removeLoaderFromServerLoader. run_prims.
  rewrite Hscope, Hroute, Hgone. cbv beta iota delta [negb].
  destruct (arrayIncludes sl route) eqn:Hin; cbv beta iota;
    repeat split; try reflexivity. symmetry. now apply filter_absent.
Qed.


Lemma NoDup_push (l : list string) (a : string) :
  List.NoDup l → arrayIncludes l a = false → List.NoDup (l ++ [a]).
Proof.
  intros Hl Ha. apply NoDup_ListNoDup, NoDup_app. split; [now apply NoDup_ListNoDup |].
  split; [| apply NoDup_singleton].
  intros x Hx ->%list_elem_of_singleton.
  apply list_elem_of_In, arrayIncludes_In in Hx. congruence.
Qed.

(** X12.  The updater never publishes a name twice: when the published
    names are pairwise distinct before an event, they are after it. *)
Theorem watch_names_stay_distinct event path w :
  List.NoDup (serverLoaders w) →
  List.NoDup (serverLoaders (builderWatchHook srcDir event path w).2).
Proof.
  destruct (builderWatchHook srcDir event path w) as [r w'] eqn:Hrun. cbn [snd].
  destruct w as [sl sh nh lm tt tu fs lg].
  unfold builderWatchHook, watchBody, removeLoaderFromServerLoader, loadFile, Fs.readFile in Hrun.
  run_in Hrun. cbn [serverLoaders].
  split_run_in Hrun; frame_writeLoader; injection Hrun as <- <-; cbn [serverLoaders];
    intros Hnodup;
    first [ assumption
          | now apply List.NoDup_filter
          | now apply NoDup_push ].
Qed.

(** [writeLoader] that throws has written nothing. *)
Lemma writeLoader_throws file dir route w e w' :
  writeLoader file dir route w = (Throw e, w') → w' = w.
Proof.
  destruct w as [sl sh nh lm tt tu fs lg].
  unfold writeLoader, Fs.writeFile, Fs.appendFile. run_prims.
  unfold Fs.writeFile, Fs.appendFile, Fs.isDir. cbn [dirs files].
  destruct (generateCode _); [| now intros [= _ <-]].
  destruct (transform _); [| now intros [= _ <-]].
  destruct (bool_decide _) eqn:Hd; [now intros [= _ <-] |].
  destruct (bool_decide (Fs.parent _ ∈ fs.(dirs))) eqn:Hp; [| now intros [= _ <-]].
  cbn [dirs files]. rewrite Hd, Hp. discriminate.
Qed.

(** X16.  An event that fails changes neither the published names, nor the
    loader map, nor the disk, and requests no regeneration: whatever is
    thrown in the [try] block is thrown before any of them is written.  Only
    the POST registration of the file may already have been made. *)
Theorem watch_failure_keeps_registry event path w e w1 :
  watchBody srcDir event path w = (Throw e, w1) →
  serverLoaders w1 = serverLoaders w
  ∧ loaderMap w1 = loaderMap w
  ∧ disk w1 = disk w
  ∧ templateUpdates w1 = templateUpdates w
  ∧ nitroHandlers w1 = nitroHandlers w
  ∧ extends (serverHandlers w) (serverHandlers w1).
Proof.
  destruct w as [sl sh nh lm tt tu fs lg]. intros Hrun.
  unfold watchBody, removeLoaderFromServerLoader, loadFile, Fs.readFile in Hrun.
  run_in Hrun.
  cbn [serverLoaders loaderMap disk templateUpdates nitroHandlers serverHandlers].
  split_run_in Hrun;
    repeat match goal with
           | Hw : writeLoader _ _ _ _ = (Throw _, _) |- _ => apply writeLoader_throws in Hw as ->
           end;
    try discriminate Hrun; injection Hrun as <- <-;
    cbn [serverLoaders loaderMap disk templateUpdates nitroHandlers serverHandlers];
    repeat split; try reflexivity;
    first [ now exists [] | eexists; reflexivity | rewrite app_nil_r; reflexivity ].
Qed.

End WatchMore.

(** ** Setup, and what every run keeps *)


Lemma extends_refl {A : Type} (l : list A) : extends l l.
Proof. exists []. now rewrite app_nil_r. Qed.

Lemma extends_push {A : Type} (l l' : list A) x : extends l l' → extends l (l' ++ [x]).
Proof. intros [rest ->]. exists (rest ++ [x]). now rewrite app_assoc. Qed.

Lemma mapSet_keys k v m :
  map fst (mapSet k v m) = if mapHas k m then map fst m else map fst m ++ [k].
Proof.
  unfold mapHas. induction m as [|[k' v'] m IH]; cbn; [reflexivity |].
  destruct (String.eqb_spec k' k) as [->|Hk]; cbn; [reflexivity |].
  rewrite IH. now destruct (existsb _ m).
Qed.

Lemma mapHas_keys k m : mapHas k m = true ↔ In k (map fst m).
Proof.
  unfold mapHas. rewrite existsb_exists, in_map_iff. split.
  - intros ([k' v] & Hin & Heq). apply String.eqb_eq in Heq. cbn in Heq. subst.
    now exists (k, v).
  - intros ([k' v] & <- & Hin). exists (k', v). split; [assumption | apply String.eqb_refl].
Qed.

Lemma mapSet_NoDup k v m :
  List.NoDup (map fst m) → List.NoDup (map fst (mapSet k v m)).
Proof.
  intros Hm. rewrite mapSet_keys. destruct (mapHas k m) eqn:Hk; [assumption |].
  apply NoDup_ListNoDup, NoDup_app. split; [now apply NoDup_ListNoDup |].
  split; [| apply NoDup_singleton].
  intros x Hx ->%list_elem_of_singleton. apply list_elem_of_In, mapHas_keys in Hx. congruence.
Qed.

Lemma mapSet_Forall (P : string * LoaderEntry → Prop) k v m :
  Forall P m → P (k, v) → Forall P (mapSet k v m).
Proof.
  intros Hm Hkv. induction m as [|[k' v'] m IH]; cbn.
  - now constructor.
  - apply Forall_cons_1 in Hm as [Hhead Hm].
    destruct (String.eqb k' k); constructor; auto.
Qed.

Section Invariants.

Context `{Toolchain}.
Variable srcDir : string.


Ltac name_handler :=
  try match goal with
      | Hw : writeLoader _ _ _ _ = (Ok _, _) |- _ =>
          let Hh := fresh "Hh" in
          pose proof (writeLoader_returns _ _ _ _ _ _ Hw) as [Hh _]; subst
      end.

Ltac wellFormed_leaf :=
  first [ assumption
        | match goal with
          | Hwf : _ ∧ _ |- _ =>
              destruct Hwf as [Hkeys Hentries]; split;
              [ now apply mapSet_NoDup
              | apply mapSet_Forall; [assumption | reflexivity] ]
          end ].

Lemma watch_wellFormed event path :
  keeps (loaderMapWellFormed srcDir) (builderWatchHook srcDir event path).
Proof.
  intros w r w' Hrun. destruct w as [sl sh nh lm tt tu fs lg].
  unfold builderWatchHook, watchBody, removeLoaderFromServerLoader, loadFile, Fs.readFile in Hrun.
  run_in Hrun. unfold loaderMapWellFormed. cbn [loaderMap].
  split_run_in Hrun; name_handler; injection Hrun as <- <-; frame_writeLoader;
    cbn [loaderMap]; intros Hwf; wellFormed_leaf.
Qed.

Lemma scanAction_wellFormed actionPath :
  keeps (loaderMapWellFormed srcDir) (scanAction srcDir actionPath).
Proof.
  intros w r w' Hrun. destruct w as [sl sh nh lm tt tu fs lg].
  unfold scanAction, loadFile, Fs.readFile in Hrun.
  run_in Hrun. unfold loaderMapWellFormed. cbn [loaderMap].
  split_run_in Hrun; name_handler; injection Hrun as <- <-; frame_writeLoader;
    cbn [loaderMap]; intros Hwf; wellFormed_leaf.
Qed.

Lemma scan_wellFormed entries :
  keeps (loaderMapWellFormed srcDir) (nitroConfigHook srcDir entries).
Proof.
  assert (Hdisk : ∀ w fs, loaderMapWellFormed srcDir w → loaderMapWellFormed srcDir (setDisk fs w))
    by (intros [] fs Hw; exact Hw).
  unfold nitroConfigHook, existsSync, fsp_rm, fsp_mkdir, fsp_writeFile, addLoaderTypes,
    logger_success.
  repeat first
    [ apply keeps_bind; [| intros ?]
    | apply keeps_when
    | apply keeps_gets
    | apply keeps_liftFs; exact Hdisk
    | apply keeps_forOf; intros actionPath; apply scanAction_wellFormed
    | apply keeps_modify; intros [] Hw; exact Hw ].
Qed.

(** X13.  In every state the pipeline reaches, the loader map holds at
    most one entry per route, and the entry of a route names that route, the
    generated file of that route in the loader directory and the loader URL
    of that route. *)
Theorem reachable_loaderMap_wellFormed w :
  reachable srcDir w → loaderMapWellFormed srcDir w.
Proof.
  induction 1 as [w w' Hsetup | w entries _ IH | w event path _ IH | w fs _ IH].
  - unfold setup in Hsetup.
    apply bind_Ok_inv in Hsetup as (? & w1 & _ & Hsetup).
    apply bind_Ok_inv in Hsetup as (present & w2 & _ & Hsetup).
    apply bind_Ok_inv in Hsetup as (? & w3 & _ & Hsetup).
    destruct w3. injection Hsetup as <-. split; constructor.
  - destruct (nitroConfigHook srcDir entries w) as [r w'] eqn:Hrun.
    exact (scan_wellFormed _ _ _ _ Hrun IH).
  - destruct (builderWatchHook srcDir event path w) as [r w'] eqn:Hrun.
    exact (watch_wellFormed _ _ _ _ _ Hrun IH).
  - destruct w. exact IH.
Qed.

End Invariants.

(** ** What a full scan adds and owns *)

Lemma keeps_forOf_In {A : Type} (P : World → Prop) (l : list A) body :
  (∀ x, In x l → keeps P (body x)) → keeps P (forOf l body).
Proof.
  induction l as [|x l IH]; intros Hbody; cbn [forOf].
  - intros w r w' [= <- <-]. auto.
  - apply keeps_bind; [apply Hbody; now left |].
    intros _. apply IH. intros y Hy. apply Hbody. now right.
Qed.

Section ScanOwns.

Context `{Toolchain}.
Variable srcDir : string.

Ltac onlyAdds_leaf :=
  match goal with
  | HP : onlyAdds _ _ |- _ =>
      destruct HP as (Hn & Hs & Hl & Hm & Hh & Hu);
      cbn [nitroHandlers serverLoaders logs loaderMap serverHandlers templateUpdates] in *;
      repeat split;
      cbn [nitroHandlers serverLoaders logs loaderMap serverHandlers templateUpdates];
      first [ assumption
            | repeat apply extends_push; assumption
            | intros k Hk; rewrite ?mapHas_mapSet; rewrite (Hm k Hk); reflexivity ]
  end.

Lemma scanAction_onlyAdds w0 actionPath : keeps (onlyAdds w0) (scanAction srcDir actionPath).
Proof.
  intros w r w' Hrun. destruct w as [sl sh nh lm tt tu fs lg].
  unfold scanAction, loadFile, Fs.readFile in Hrun. run_in Hrun.
  split_run_in Hrun; injection Hrun as <- <-; frame_writeLoader; intros HP; onlyAdds_leaf.
Qed.

(** X14.  A full scan only adds: the nitro handlers, the published names
    and the log of before are still there, in place, followed by what the
    scan pushed; every key of the loader map is still a key; the server
    handlers are untouched and no regeneration of the template is requested.
    This holds whether the scan returns or throws. *)
Theorem scan_only_adds entries w :
  onlyAdds w (nitroConfigHook srcDir entries w).2.
Proof.
  assert (Hkeeps : keeps (onlyAdds w) (nitroConfigHook srcDir entries)).
  { unfold nitroConfigHook, existsSync, fsp_rm, fsp_mkdir, fsp_writeFile, addLoaderTypes,
      logger_success.
    repeat first
      [ apply keeps_bind; [| intros ?]
      | apply keeps_when
      | apply keeps_gets
      | apply keeps_liftFs; intros [] fs HP; exact HP
      | apply keeps_forOf; intros actionPath; apply scanAction_onlyAdds
      | apply keeps_modify; intros [] HP; onlyAdds_leaf ]. }
  destruct (nitroConfigHook srcDir entries w) as [r w'] eqn:Hrun. cbn [snd].
  apply (Hkeeps _ _ _ Hrun). unfold onlyAdds.
  repeat split; try apply extends_refl; auto.
Qed.

Lemma loadFile_frame path w r w' : loadFile path w = (r, w') → w' = w.
Proof.
  unfold loadFile. intros Hrun.
  apply bind_inv in Hrun as [(text & w1 & Hread & Hrun) | (e & Hread & ->)].
  - injection Hread as _ <-. destruct (parseModule text); now injection Hrun as _ <-.
  - now injection Hread as _ <-.
Qed.

(** The scan of a file writes at most the generated file of its route. *)
Lemma scanAction_disk actionPath w r w' :
  scanAction srcDir actionPath w = (r, w') →
  disk w' = disk w
  ∨ ∃ route shaked,
      getActionRoute actionPath = Ok route
      ∧ disk w' = mkFS (dirs (disk w))
                       (<[handlerOf srcDir route := GENERATED_TEXT +:+ shaked]> (files (disk w))).
Proof.
  intros Hrun. unfold scanAction in Hrun.
  apply bind_inv in Hrun as [(route & w1 & Hr & Hrun) | (e & Hr & ->)];
    [| left; unfold liftResult in Hr; now injection Hr as _ <-].
  unfold liftResult in Hr. injection Hr as Hroute <-.
  apply bind_inv in Hrun as [(file & w2 & Hl & Hrun) | (e & Hl & ->)];
    apply loadFile_frame in Hl as ->; [| now left].
  apply bind_inv in Hrun as [([] & w3 & Hd & Hrun) | (e & Hd & ->)].
  2:{ left. revert Hd. destruct (hasExport "default" file); cbn [when].
      - intros Hd. unfold mbind, M_bind, modify, logger_success in Hd.
        destruct w. discriminate Hd.
      - discriminate. }
  assert (Hw3 : disk w3 = disk w).
  { revert Hd. destruct (hasExport "default" file); cbn [when].
    - intros Hd. unfold mbind, M_bind, modify, logger_success in Hd.
      destruct w. now injection Hd as <-.
    - now intros [= <-]. }
  destruct (hasExport "loader" file); cbn [when] in Hrun;
    [| injection Hrun as _ <-; now left].
  apply bind_inv in Hrun as [(h & w4 & Hw & Hrun) | (e & Hw & ->)].
  - right. apply writeLoader_returns in Hw as (-> & code & shaked & _ & _ & _ & _ & ->).
    exists route, shaked. split; [assumption |].
    unfold mbind, M_bind, modify, logger_success in Hrun.
    destruct w3. cbn [disk setDisk] in *. injection Hrun as _ <-. cbn [disk].
    now rewrite Hw3.
  - left. apply writeLoader_throws in Hw as ->. assumption.
Qed.

Lemma scanAction_owns paths actionPath :
  In actionPath paths → keeps (ownedBy srcDir paths) (scanAction srcDir actionPath).
Proof.
  intros Hin w r w' Hrun Hown.
  apply scanAction_disk in Hrun as [Hdisk | (route & shaked & Hroute & Hdisk)];
    unfold ownedBy; rewrite Hdisk; [exact Hown |].
  intros q Hwithin Hfile. cbn [files] in Hfile.
  destruct (decide (q = handlerOf srcDir route)) as [-> | Hne].
  - right. now exists actionPath, route.
  - rewrite lookup_insert_ne in Hfile by congruence. exact (Hown q Hwithin Hfile).
Qed.

(** X17.  The loader directory belongs to the scan.  Starting from a disk
    whose files lie in existing directories, whatever file is found in the
    loader directory after the hook has run, returned or thrown, is
    [.gitignore] or the generated file of the route of a file of the walk:
    what an earlier run had left there is gone. *)
Theorem scan_owns_loader_directory entries w :
  (Fs.exists_ (disk w) (loaderDirectory srcDir) = false →
   ∀ p, Fs.within (loaderDirectory srcDir) p = true → files (disk w) !! p = None) →
  ownedBy srcDir (walkFiles (actionDirectoryPath srcDir) entries)
          (nitroConfigHook srcDir entries w).2.
Proof.
  intros Hclean.
  set (paths := walkFiles (actionDirectoryPath srcDir) entries).
  set (ld := loaderDirectory srcDir).
  set (empty := λ w0 : World, ∀ p, Fs.within ld p = true → files (disk w0) !! p = None).
  assert (Hempty_owned : ∀ w0, empty w0 → ownedBy srcDir paths w0).
  { intros w0 He p Hwithin [x Hx]. rewrite (He p Hwithin) in Hx. discriminate. }
  assert (Hrest : ∀ w0 r0 w0',
             (forOf paths (scanAction srcDir) ≫= λ _, addLoaderTypes ≫= λ _,
                gets serverLoaders ≫= λ names,
                logger_success ("[form-actions] {loader} added to the config : "
                                +:+ join ", " names)) w0 = (r0, w0') →
             ownedBy srcDir paths w0 → ownedBy srcDir paths w0').
  { apply keeps_bind; [apply keeps_forOf_In; intros x Hx; now apply scanAction_owns |].
    intros _. unfold addLoaderTypes, logger_success.
    repeat first [ apply keeps_bind; [| intros ?] | apply keeps_gets
                 | apply keeps_modify; intros [] HP; exact HP ]. }
  assert (Hbody : ∀ w0 r0 w0',
             (fsp_mkdir ld ≫= λ _, fsp_writeFile (ld +:+ "/.gitignore") "*" ≫= λ _,
                forOf paths (scanAction srcDir) ≫= λ _, addLoaderTypes ≫= λ _,
                gets serverLoaders ≫= λ names,
                logger_success ("[form-actions] {loader} added to the config : "
                                +:+ join ", " names)) w0 = (r0, w0') →
             empty w0 → ownedBy srcDir paths w0').
  { intros w0 r0 w0' Hrun He.
    apply bind_inv in Hrun as [([] & w1 & Hmk & Hrun) | (e & Hmk & ->)].
    2:{ apply Hempty_owned. unfold fsp_mkdir, liftFs, Fs.mkdir in Hmk.
        destruct w0 as [sl sh nh lm tt tu fs lg]. cbn [disk] in *.
        destruct (Fs.exists_ fs ld); [injection Hmk as _ <-; exact He |].
        destruct (Fs.isDir fs (Fs.parent ld)); [discriminate | injection Hmk as _ <-; exact He]. }
    assert (He1 : empty w1).
    { unfold fsp_mkdir, liftFs, Fs.mkdir in Hmk.
      destruct w0 as [sl sh nh lm tt tu fs lg]. cbn [disk] in *.
      destruct (Fs.exists_ fs ld); [discriminate |].
      destruct (Fs.isDir fs (Fs.parent ld)); [| discriminate].
      injection Hmk as <-. exact He. }
    apply bind_inv in Hrun as [([] & w2 & Hwr & Hrun) | (e & Hwr & ->)].
    2:{ apply Hempty_owned. unfold fsp_writeFile, liftFs, Fs.writeFile in Hwr.
        destruct w1 as [sl sh nh lm tt tu fs lg]. cbn [disk] in *.
        destruct (Fs.isDir fs _); [injection Hwr as _ <-; exact He1 |].
        destruct (Fs.isDir fs _); [discriminate | injection Hwr as _ <-; exact He1]. }
    apply (Hrest _ _ _ Hrun).
    unfold fsp_writeFile, liftFs, Fs.writeFile in Hwr.
    destruct w1 as [sl sh nh lm tt tu fs lg]. cbn [disk] in *.
    destruct (Fs.isDir fs _); [discriminate |].
    destruct (Fs.isDir fs _); [| discriminate].
    injection Hwr as <-. intros p Hwithin [x Hx]. cbn [disk files setDisk] in Hx.
    destruct (decide (p = ld +:+ "/.gitignore")) as [-> | Hne]; [now left |].
    rewrite lookup_insert_ne in Hx by congruence.
    pose proof (He1 p Hwithin) as Hnone. cbn [disk] in Hnone. congruence. }
  destruct (nitroConfigHook srcDir entries w) as [r w'] eqn:Hrun. cbn [snd].
  unfold nitroConfigHook in Hrun. fold ld paths in Hrun.
  apply bind_inv in Hrun as [(present & w1 & Hex & Hrun) | (e & Hex & ->)];
    [| discriminate Hex].
  injection Hex as <- <-.
  destruct (Fs.exists_ (disk w) ld) eqn:Hpresent.
  - apply bind_inv in Hrun as [([] & w2 & Hrm & Hrun) | (e & Hrm & ->)].
    + apply (Hbody _ _ _ Hrun).
      unfold when, fsp_rm, liftFs, Fs.rmRecursive in Hrm. rewrite Hpresent in Hrm.
      injection Hrm as <-. destruct w as [sl sh nh lm tt tu fs lg].
      intros p Hwithin. cbn [disk files setDisk].
      apply map_lookup_filter_None. right. intros x _. cbn. congruence.
    + unfold when, fsp_rm, liftFs, Fs.rmRecursive in Hrm. rewrite Hpresent in Hrm.
      discriminate.
  - apply bind_inv in Hrun as [([] & w2 & Hskip & Hrun) | (e & Hskip & ->)];
      [| discriminate Hskip].
    injection Hskip as <-. exact (Hbody _ _ _ Hrun (Hclean Hpresent)).
Qed.

End ScanOwns.

(** ** The declaration artifact *)

Lemma includes_refl s : includes s s = true.
Proof.
  destruct s as [|c s]; [reflexivity |].
  pose proof (startsWith_append (String c s) EmptyString) as Hs.
  rewrite append_empty_r in Hs. now rewrite includes_String, Hs.
Qed.

Lemma includes_join sep (l : list string) x : In x l → includes (join sep l) x = true.
Proof.
  unfold join. induction l as [|y l IH]; [intros [] |].
  intros Hx. cbn [concat]. destruct l as [|z l].
  - destruct Hx as [-> | []]. apply includes_refl.
  - destruct Hx as [-> | Hx].
    + apply includes_append_r, includes_refl.
    + apply includes_append_l, includes_append_l. exact (IH Hx).
Qed.

Section Declarations.

Context `{Toolchain}.

(** X15.  Every entry of the loader map is in the rendered declaration:
    its URL, quoted, is a member of the URL union and its name, quoted, a
    member of the name union, both unions standing in the artifact; the
    artifact has the type alias that imports the default export of its
    generated file, and the member of the [Loaders] interface under its name. *)
Theorem loaderTypes_lists_every_loader w entry :
  In entry (mapValues (loaderMap w)) →
  let entries := mapValues (loaderMap w) in
  includes (loaderUrlUnion entries) (dquote +:+ l_url entry +:+ dquote) = true
  ∧ includes (loaderNameUnion entries) (dquote +:+ l_name entry +:+ dquote) = true
  ∧ includes (loaderTypes w) ("          type LoaderUrl = " +:+ loaderUrlUnion entries +:+ newline)
    = true
  ∧ includes (loaderTypes w) ("          type LoaderName = " +:+ loaderNameUnion entries +:+ newline)
    = true
  ∧ includes (loaderTypes w)
      ("type Loader" +:+ capitalize (l_name entry) +:+ " = typeof import(" +:+ dquote
       +:+ l_filePath entry +:+ dquote +:+ ").default") = true
  ∧ includes (loaderTypes w)
      (dquote +:+ l_name entry +:+ dquote +:+ ": ExtractLoader<Loader"
       +:+ capitalize (l_name entry) +:+ ">") = true.
Proof.
  intros Hin entries. unfold loaderTypes. fold entries. unfold getContents.
  assert (Hchain : ∀ a b c rest, includes (a +:+ b +:+ c +:+ rest) (a +:+ b +:+ c) = true).
  { intros a b c rest.
    replace (a +:+ b +:+ c +:+ rest) with ((a +:+ b +:+ c) +:+ rest)
      by now rewrite !append_assoc.
    apply includes_append_r, includes_refl. }
  split; [| split; [| split; [| split; [| split]]]].
  - unfold loaderUrlUnion. apply includes_join.
    apply (in_map (λ l, dquote +:+ l_url l +:+ dquote)), Hin.
  - unfold loaderNameUnion. apply includes_join.
    apply (in_map (λ l, dquote +:+ l_name l +:+ dquote)), Hin.
  - do 5 apply includes_append_l. apply Hchain.
  - do 9 apply includes_append_l. apply Hchain.
  - do 15 apply includes_append_l. apply includes_append_r, includes_join.
    apply (in_map (λ l, "type Loader" +:+ capitalize (l_name l) +:+ " = typeof import("
                        +:+ dquote +:+ l_filePath l +:+ dquote +:+ ").default")), Hin.
  - do 21 apply includes_append_l. apply includes_append_r, includes_join.
    apply (in_map (λ l, dquote +:+ l_name l +:+ dquote +:+ ": ExtractLoader<Loader"
                        +:+ capitalize (l_name l) +:+ ">")), Hin.
Qed.

Variable srcDir : string.

(** X18.  The updater registers a handler for any file in scope that is on
    disk and parses, whatever it exports: when no server handler is backed
    by the path yet, the lazy POST handler at the route is pushed, even for
    a file without a default export and even when the extraction of its
    loader fails afterwards. *)
Theorem watch_registers_any_export event path route text file w :
  includes path "server/actions" = true →
  getActionRoute path = Ok route →
  files (disk w) !! path = Some text →
  parseModule text = Some file →
  existsb (λ handler, String.eqb (h_handler handler) path) (serverHandlers w) = false →
  serverHandlers (builderWatchHook srcDir event path w).2
  = serverHandlers w ++ [mkHandler (Some post) ("/" +:+ route) true path false].
Proof.
  intros Hscope Hroute Htext Hparse Hnone.
  pose proof (exists_file _ _ _ Htext) as Hexists.
  destruct (builderWatchHook srcDir event path w) as [r w'] eqn:Hrun. cbn [snd].
  destruct w as [sl sh nh lm tt tu fs lg]. cbn [disk serverHandlers] in *.
  unfold builderWatchHook, watchBody, removeLoaderFromServerLoader, loadFile, Fs.readFile in Hrun.
  run_in Hrun. rewrite Hscope, Hroute, Hexists in Hrun. cbv beta iota delta [negb] in Hrun.
  rewrite Htext, Hparse, Hnone in Hrun. cbv beta iota in Hrun.
  split_run_in Hrun; frame_writeLoader; injection Hrun as <- <-; reflexivity.
Qed.

End Declarations.

(** ** The further properties on the example project *)

Section MoreExamples.

Import Toy.

Lemma loader_targets_distinct_witness :
  "/proj/server/.loader/profile.ts" ≠ "/proj/server/.loader/search.ts"
  ∧ getLoaderRoute "profile" ≠ getLoaderRoute "search".
Proof.
  assert (Hrun1 : writeLoader (loaded loaderOnly) "/proj/server/.loader" "profile" scanned
                  = (Ok "/proj/server/.loader/profile.ts",
                     (writeLoader (loaded loaderOnly) "/proj/server/.loader" "profile" scanned).2))
    by (vm_compute; reflexivity).
  assert (Hrun2 : writeLoader (loaded both) "/proj/server/.loader" "search" scanned
                  = (Ok "/proj/server/.loader/search.ts",
                     (writeLoader (loaded both) "/proj/server/.loader" "search" scanned).2))
    by (vm_compute; reflexivity).
  apply (loader_targets_distinct _ _ _ _ _ _ _ _ _ _ _ Hrun1 Hrun2). discriminate.
Defined.


Lemma scanAction_no_exports_witness :
  let w := edit "/proj/server/actions/profile.ts" noExports scanned in
  scanAction "/proj" "/proj/server/actions/profile.ts" w = (Ok tt, w).
Proof.
  intros w.
  apply (scanAction_no_exports "/proj" "/proj/server/actions/profile.ts" "profile" noExports
           (loaded noExports) w); vm_compute; reflexivity.
Defined.

Lemma scan_requires_routes_witness :
  let run := nitroConfigHook "/proj" [FileEnt "login.ts"; FileEnt "notes.md"] (world example) in
  (∃ e', run.1 = Throw e')
  ∧ loaderTypesTemplate run.2 = loaderTypesTemplate (world example)
  ∧ serverHandlers run.2 = serverHandlers (world example).
Proof.
  apply (scan_requires_routes "/proj" [FileEnt "login.ts"; FileEnt "notes.md"]
           "/proj/server/actions/notes.md"
           (Error "Could not parse action route from /proj/server/actions/notes.md")
           (world example)).
  - cbn. right. left. reflexivity.
  - reflexivity.
Defined.


Lemma removeLoader_spec_witness :
  (removeLoaderFromServerLoader "absent" scanned).2 = scanned.
Proof.
  apply (proj1 (proj2 (proj2 (proj2 (proj2 (removeLoader_spec "absent" scanned)))))).
  vm_compute. intros [[=] | [[=] | []]].
Defined.

Lemma watch_deleted_file_witness :
  let w' := (builderWatchHook "/proj" "unlink" "/proj/server/actions/gone.ts" scanned).2 in
  serverLoaders w' = List.filter (λ r, negb (String.eqb r "gone")) (serverLoaders scanned)
  ∧ serverHandlers w' = serverHandlers scanned
  ∧ nitroHandlers w' = nitroHandlers scanned
  ∧ loaderMap w' = loaderMap scanned
  ∧ templateUpdates w' = templateUpdates scanned
  ∧ disk w' = disk scanned.
Proof.
  apply (watch_deleted_file "/proj" "unlink" "/proj/server/actions/gone.ts" "gone" scanned);
    vm_compute; reflexivity.
Defined.


Lemma watch_names_stay_distinct_witness :
  List.NoDup (serverLoaders
                (builderWatchHook "/proj" "change" "/proj/server/actions/login.ts" scanned).2).
Proof.
  apply (watch_names_stay_distinct "/proj" "change" "/proj/server/actions/login.ts" scanned).
  vm_compute. repeat constructor; cbn; intuition discriminate.
Defined.

Lemma reachable_loaderMap_wellFormed_witness :
  loaderMapWellFormed "/proj" stripped.
Proof.
  apply (reachable_loaderMap_wellFormed "/proj" stripped).
  unfold stripped, edit, scanned. apply reach_watch, reach_edit, reach_scan.
  apply (reach_setup "/proj" (world example)). vm_compute. reflexivity.
Defined.

Lemma loaderTypes_lists_every_loader_witness :
  let entry := mkLoader "profile" "/proj/server/.loader/profile.ts" "/__loaders__/profile" in
  let entries := mapValues (loaderMap scanned) in
  includes (loaderUrlUnion entries) (dquote +:+ l_url entry +:+ dquote) = true
  ∧ includes (loaderNameUnion entries) (dquote +:+ l_name entry +:+ dquote) = true
  ∧ includes (loaderTypes scanned)
      ("          type LoaderUrl = " +:+ loaderUrlUnion entries +:+ newline) = true
  ∧ includes (loaderTypes scanned)
      ("          type LoaderName = " +:+ loaderNameUnion entries +:+ newline) = true
  ∧ includes (loaderTypes scanned)
      ("type Loader" +:+ capitalize (l_name entry) +:+ " = typeof import(" +:+ dquote
       +:+ l_filePath entry +:+ dquote +:+ ").default") = true
  ∧ includes (loaderTypes scanned)
      (dquote +:+ l_name entry +:+ dquote +:+ ": ExtractLoader<Loader"
       +:+ capitalize (l_name entry) +:+ ">") = true.
Proof.
  intros entry.
  apply (loaderTypes_lists_every_loader scanned entry). vm_compute. left. reflexivity.
Defined.

Lemma watch_failure_keeps_registry_witness :
  let w1 := (watchBody "/proj" "unlink" "/proj/server/actions/profile.js" scanned).2 in
  serverLoaders w1 = serverLoaders scanned
  ∧ loaderMap w1 = loaderMap scanned
  ∧ disk w1 = disk scanned
  ∧ templateUpdates w1 = templateUpdates scanned
  ∧ nitroHandlers w1 = nitroHandlers scanned
  ∧ extends (serverHandlers scanned) (serverHandlers w1).
Proof.
  intros w1.
  assert (Hrun : watchBody "/proj" "unlink" "/proj/server/actions/profile.js" scanned
                 = (Throw (Error "Could not parse action route from /proj/server/actions/profile.js"),
                    w1))
    by (subst w1; vm_compute; reflexivity).
  exact (watch_failure_keeps_registry _ _ _ _ _ _ Hrun).
Defined.

Lemma scan_owns_loader_directory_witness :
  ownedBy "/proj" (walkFiles (actionDirectoryPath "/proj") [FileEnt "login.ts"])
          (nitroConfigHook "/proj" [FileEnt "login.ts"] scanned).2.
Proof.
  apply (scan_owns_loader_directory "/proj" [FileEnt "login.ts"] scanned).
  intros Habsent. vm_compute in Habsent. discriminate Habsent.
Defined.

Lemma watch_registers_any_export_witness :
  let w := edit "/proj/server/actions/profile.ts" noExports scanned in
  serverHandlers (builderWatchHook "/proj" "change" "/proj/server/actions/profile.ts" w).2
  = serverHandlers w
    ++ [mkHandler (Some post) ("/" +:+ "profile") true "/proj/server/actions/profile.ts" false].
Proof.
  intros w.
  apply (watch_registers_any_export "/proj" "change" "/proj/server/actions/profile.ts"
           "profile" noExports (loaded noExports) w); vm_compute; reflexivity.
Defined.

End MoreExamples.
